(** * DashCraft: a shallow embedding of [DashCraft.py] and its properties

    The development follows the Python source function by function.

    - Python values that [yaml.safe_load] can hand to the program are the
      inductive type [value]; a dict is the list of its entries in insertion
      order, looked up by key.
    - Python exceptions are the type [exn]; a computation that touches the
      file system is a function from the file system to a result and the
      file system it leaves behind, so that what was written before an
      exception stays written, as it does on disk.
    - The file system is a finite map from resolved locations (the list of
      names from the root) to nodes, with a current directory. Path strings
      are resolved the way a POSIX kernel does it: component by component,
      every component but the last one naming an existing directory.

    Limits of the model, fixed here once: POSIX paths ([os.path] is
    [posixpath]), Python 3.8 or later, no symbolic links, no permissions,
    quotas or name-length limits, one process. Strings are sequences of
    8-bit characters and stand for ASCII text: the case mappings leave the
    codes above 127 alone. YAML scalars other than null, booleans, integers
    and strings (floats, dates, binary) and dict keys other than strings are
    not represented. The generation code runs on the file system alone,
    and [main] starts from the loaded configuration; the terminal, the
    dependency check and the reading of the YAML file are the module
    [Cli], where the YAML parser and [pip] are given with the world. *)

From Stdlib Require Import String Ascii ZArith List Lia Bool.
From stdpp Require Import base tactics option strings list gmap pretty.

Open Scope string_scope.
Open Scope list_scope.
Set Warnings "-register-all".

(** ** Characters and strings *)

Module PyStr.

Definition nl : string := String (ascii_of_nat 10) "".
Definition dq : string := String (ascii_of_nat 34) "".

(** [sep.join(lines)] with [sep] a newline. *)
Fixpoint unlines (ls : list string) : string :=
  match ls with
  | [] => ""
  | [l] => l
  | l :: ls' => l +:+ nl +:+ unlines ls'
  end.

Definition quoted (s : string) : string := dq +:+ s +:+ dq.

Definition is_slash (c : ascii) : bool := Ascii.eqb c "/".
Definition is_nul (c : ascii) : bool := Ascii.eqb c (ascii_of_nat 0).

Definition upper_char (c : ascii) : ascii :=
  let n := nat_of_ascii c in
  if (97 <=? n)%nat && (n <=? 122)%nat then ascii_of_nat (n - 32) else c.

Definition lower_char (c : ascii) : ascii :=
  let n := nat_of_ascii c in
  if (65 <=? n)%nat && (n <=? 90)%nat then ascii_of_nat (n + 32) else c.

Fixpoint lower (s : string) : string :=
  match s with
  | "" => ""
  | String c s' => String (lower_char c) (lower s')
  end.

(** [str.capitalize()]: the first character upper-cased, every other
    character lower-cased. *)
Definition capitalize (s : string) : string :=
  match s with
  | "" => ""
  | String c s' => String (upper_char c) (lower s')
  end.

Fixpoint existsb_char (f : ascii → bool) (s : string) : bool :=
  match s with
  | "" => false
  | String c s' => f c || existsb_char f s'
  end.

Definition has_slash : string → bool := existsb_char is_slash.
Definition has_nul : string → bool := existsb_char is_nul.

(** [s.startswith('/')] and [s.endswith('/')]. *)
Definition starts_with_slash (s : string) : bool :=
  match s with
  | String c _ => is_slash c
  | "" => false
  end.

Fixpoint ends_with_slash (s : string) : bool :=
  match s with
  | "" => false
  | String c "" => is_slash c
  | String _ s' => ends_with_slash s'
  end.

Definition is_empty (s : string) : bool :=
  match s with "" => true | _ => false end.

End PyStr.
Export PyStr.

(** ** Python values and exceptions *)

Inductive value : Type :=
  | VNone
  | VBool (b : bool)
  | VInt (n : Z)
  | VStr (s : string)
  | VList (items : list value)
  | VDict (entries : list (string * value)).

(** [FilesystemError] is [OSError] with all its subclasses
    ([FileExistsError], [NotADirectoryError], [IsADirectoryError],
    [FileNotFoundError]); the program never tells them apart. *)
Inductive exn : Type :=
  | KeyError (key : string)
  | TypeError
  | AttributeError
  | ValueError
  | NameError (name : string)
  | FilesystemError.

Definition result (A : Type) : Type := exn + A.

Module Py.

(** Lookup in a dict: the first entry with the key. *)
Fixpoint dict_lookup (k : string) (d : list (string * value)) : option value :=
  match d with
  | [] => None
  | (k', v) :: d' => if String.eqb k k' then Some v else dict_lookup k d'
  end.

(** [bool(v)], as [if not config] uses it. *)
Definition truthy (v : value) : bool :=
  match v with
  | VNone => false
  | VBool b => b
  | VInt n => negb (n =? 0)%Z
  | VStr s => negb (is_empty s)
  | VList l => match l with [] => false | _ => true end
  | VDict d => match d with [] => false | _ => true end
  end.

(** [v[k]] for a string [k]: only a dict can be subscripted by a string. *)
Definition getitem (v : value) (k : string) : result value :=
  match v with
  | VDict d =>
      match dict_lookup k d with
      | Some x => inr x
      | None => inl (KeyError k)
      end
  | _ => inl TypeError
  end.

(** [v.get(k, default)]: only a dict has the method. *)
Definition get (v : value) (k : string) (default : value) : result value :=
  match v with
  | VDict d =>
      match dict_lookup k d with
      | Some x => inr x
      | None => inr default
      end
  | _ => inl AttributeError
  end.

(** [v.capitalize()]: only a str has the method. *)
Definition capitalize_method (v : value) : result string :=
  match v with
  | VStr s => inr (capitalize s)
  | _ => inl AttributeError
  end.

(** The values a [for] loop over [v] visits: the items of a list, the keys
    of a dict, the characters of a str. *)
Fixpoint chars (s : string) : list value :=
  match s with
  | "" => []
  | String c s' => VStr (String c "") :: chars s'
  end.

Definition iter (v : value) : result (list value) :=
  match v with
  | VList l => inr l
  | VDict d => inr (map (λ kv, VStr (fst kv)) d)
  | VStr s => inr (chars s)
  | _ => inl TypeError
  end.

(** [repr] of a str: single quotes unless the text has a single quote and
    no double quote; backslash, the chosen quote, tab, newline and carriage
    return escaped, other control characters as [\xNN]. *)
Definition hex_digit (n : nat) : ascii :=
  if (n <? 10)%nat then ascii_of_nat (48 + n) else ascii_of_nat (87 + n).

Definition repr_char (quote : ascii) (c : ascii) : string :=
  let n := nat_of_ascii c in
  if Ascii.eqb c quote || Ascii.eqb c "\" then String "\" (String c "")
  else if (n =? 9)%nat then "\t"
  else if (n =? 10)%nat then "\n"
  else if (n =? 13)%nat then "\r"
  else if (n <? 32)%nat || (n =? 127)%nat then
    String "\" (String "x" (String (hex_digit (n / 16)) (String (hex_digit (n mod 16)) "")))
  else String c "".

Fixpoint repr_chars (quote : ascii) (s : string) : string :=
  match s with
  | "" => ""
  | String c s' => repr_char quote c +:+ repr_chars quote s'
  end.

Definition repr_str (s : string) : string :=
  let quote : ascii :=
    if existsb_char (Ascii.eqb "'") s && negb (existsb_char (Ascii.eqb (ascii_of_nat 34)) s)
    then ascii_of_nat 34 else "'"%char in
  String quote (repr_chars quote s +:+ String quote "").

Fixpoint join_comma (ss : list string) : string :=
  match ss with
  | [] => ""
  | [s] => s
  | s :: ss' => s +:+ ", " +:+ join_comma ss'
  end.

Fixpoint repr (v : value) : string :=
  match v with
  | VNone => "None"
  | VBool true => "True"
  | VBool false => "False"
  | VInt n => pretty n
  | VStr s => repr_str s
  | VList l => "[" +:+ join_comma (map repr l) +:+ "]"
  | VDict d =>
      "{" +:+ join_comma (map (λ kv, repr_str (fst kv) +:+ ": " +:+ repr (snd kv)) d) +:+ "}"
  end.

(** [str(v)], which is what a replacement field with no format spec puts
    into the output. *)
Definition str (v : value) : string :=
  match v with
  | VStr s => s
  | _ => repr v
  end.

(** *** [str.format] with keyword arguments

    A template is cut into literal characters and replacement fields;
    [{{] and [}}] are the literal braces. Only fields that are a plain
    keyword name are in the fragment: the two templates of the program
    have no other. *)
Inductive piece : Type :=
  | Lit (c : ascii)
  | Field (name : string).

Definition field_special (c : ascii) : bool :=
  Ascii.eqb c "{" || Ascii.eqb c "!" || Ascii.eqb c ":" || Ascii.eqb c "." || Ascii.eqb c "[".

Fixpoint parse_template (s : string) (field : option string) : option (list piece) :=
  match s, field with
  | "", None => Some []
  | "", Some _ => None
  | String c s', Some acc =>
      if Ascii.eqb c "}" then
        if is_empty acc then None
        else cons (Field (String.rev acc)) <$> parse_template s' None
      else if field_special c then None
      else parse_template s' (Some (String c acc))
  | String c s', None =>
      if Ascii.eqb c "{" then
        match s' with
        | String c' s'' =>
            if Ascii.eqb c' "{" then cons (Lit "{") <$> parse_template s'' None
            else parse_template s' (Some "")
        | "" => None
        end
      else if Ascii.eqb c "}" then
        match s' with
        | String c' s'' =>
            if Ascii.eqb c' "}" then cons (Lit "}") <$> parse_template s'' None
            else None
        | "" => None
        end
      else cons (Lit c) <$> parse_template s' None
  end.

Fixpoint render (ps : list piece) (kwargs : list (string * value)) : result string :=
  match ps with
  | [] => inr ""
  | Lit c :: ps' =>
      match render ps' kwargs with
      | inr r => inr (String c r)
      | inl e => inl e
      end
  | Field n :: ps' =>
      match dict_lookup n kwargs with
      | None => inl (KeyError n)
      | Some v =>
          match render ps' kwargs with
          | inr r => inr (str v +:+ r)
          | inl e => inl e
          end
      end
  end.

Definition format (template : string) (kwargs : list (string * value)) : result string :=
  match parse_template template None with
  | None => inl ValueError
  | Some ps => render ps kwargs
  end.

End Py.

(** ** Paths: [os.path.join], [os.path.dirname] *)

Module OsPath.

(** One step of [posixpath.join]: an absolute component discards what came
    before it; otherwise it is appended, after a separator unless the path
    so far is empty or already ends in one. *)
Definition join2 (path b : string) : string :=
  if starts_with_slash b then b
  else if is_empty path || ends_with_slash path then path +:+ b
  else path +:+ "/" +:+ b.

Definition join (a : string) (p : list string) : string := foldl join2 a p.

(** [(p[:i], p[i:])] for [i = p.rfind('/') + 1]. *)
Fixpoint rcut (p : string) : string * string :=
  match p with
  | "" => ("", "")
  | String c p' =>
      let '(h, t) := rcut p' in
      if negb (is_empty h) then (String c h, t)
      else if is_slash c then ("/", t)
      else ("", String c t)
  end.

Fixpoint all_slashes (s : string) : bool :=
  match s with
  | "" => true
  | String c s' => is_slash c && all_slashes s'
  end.

(** [s.rstrip('/')]. *)
Fixpoint rstrip_slashes (s : string) : string :=
  match s with
  | "" => ""
  | String c s' =>
      if all_slashes (String c s') then "" else String c (rstrip_slashes s')
  end.

(** [posixpath.split] and [posixpath.dirname]: the head loses its trailing
    slashes unless it consists of slashes only. *)
Definition split (p : string) : string * string :=
  let '(head, tail) := rcut p in
  (if negb (is_empty head) && negb (all_slashes head) then rstrip_slashes head else head,
   tail).

Definition dirname (p : string) : string := fst (split p).

(** The pieces of [p] between slashes, [p.split('/')], and the names among
    them: the kernel skips the empty pieces. *)
Fixpoint pieces (p : string) : list string :=
  match p with
  | "" => [""]
  | String c p' =>
      if is_slash c then "" :: pieces p'
      else
        match pieces p' with
        | x :: xs => String c x :: xs
        | [] => [String c ""]
        end
  end.

Definition components (p : string) : list string :=
  filter (λ c, c ≠ "") (pieces p).

Definition isabs (p : string) : bool := starts_with_slash p.

End OsPath.

(** ** The file system *)

Inductive node : Type :=
  | Dir
  | File (content : string).

(** A location is the list of names from the root; the root is [[]]. *)
Abbreviation loc := (list string).

Record fs : Type := Fs {
  cwd : loc;
  tree : gmap loc node
}.

Module Kernel.

(** The parent of the root is the root. *)
Definition parent (l : loc) : loc := removelast l.

Definition step (cur : loc) (c : string) : loc :=
  if String.eqb c "." then cur
  else if String.eqb c ".." then parent cur
  else cur ++ [c].

Definition is_dir_at (t : gmap loc node) (l : loc) : bool :=
  match t !! l with
  | Some Dir => true
  | _ => false
  end.

(** Path resolution: every component is looked up in a directory. *)
Fixpoint walk (t : gmap loc node) (cur : loc) (cs : list string) : option loc :=
  match cs with
  | [] => Some cur
  | c :: cs' => if is_dir_at t cur then walk t (step cur c) cs' else None
  end.

Definition start (st : fs) (p : string) : loc :=
  if OsPath.isabs p then [] else cwd st.

(** Where the path string [p] leads, when every directory on the way
    exists; the location itself need not. *)
Definition resolve (st : fs) (p : string) : option loc :=
  if is_empty p then None else walk (tree st) (start st p) (OsPath.components p).

End Kernel.
Export Kernel.

(** What a reader finds at a path: the content of the regular file with
    the last name of the path, in the directory the rest of the path leads
    to; or whether the path names a directory ([os.path.isdir]). *)
Definition read_file (st : fs) (p : string) : option string :=
  let '(head, name) := OsPath.rcut p in
  match walk (tree st) (start st p) (OsPath.components head) with
  | Some d =>
      match tree st !! (d ++ [name]) with
      | Some (File content) =>
          if is_dir_at (tree st) d && negb (is_empty name) then Some content else None
      | _ => None
      end
  | None => None
  end.

Definition isdir (st : fs) (p : string) : bool :=
  match resolve st p with
  | Some l => is_dir_at (tree st) l
  | None => false
  end.

(** All regular files, by location. *)
Definition files (st : fs) : gmap loc string :=
  omap (λ n, match n with File content => Some content | Dir => None end) (tree st).

(** ** Computations: file system state and exceptions *)

Definition M (A : Type) : Type := fs → result A * fs.

#[global] Instance M_ret : MRet M := λ A a st, (inr a, st).

#[global] Instance M_bind : MBind M := λ A B f m st,
  match m st with
  | (inr a, st') => f a st'
  | (inl e, st') => (inl e, st')
  end.

#[global] Instance result_ret : MRet result := λ A a, inr a.

#[global] Instance result_bind : MBind result := λ A B f r,
  match r with
  | inr a => f a
  | inl e => inl e
  end.

Definition raise {A : Type} (e : exn) : M A := λ st, (inl e, st).

(** A pure Python expression evaluated in the middle of a computation. *)
Definition lift {A : Type} (r : result A) : M A :=
  match r with
  | inr a => mret a
  | inl e => raise e
  end.

(** [for x in l: body(x)]. *)
Fixpoint for_each {A : Type} (l : list A) (body : A → M unit) : M unit :=
  match l with
  | [] => mret tt
  | x :: l' => body x ;; for_each l' body
  end.

(** ** [os.makedirs(name, exist_ok=True)] and writing a file *)

Module Os.

(** The library function creates the longest missing suffix of the path,
    directory by directory from the outside in. Seen from the file system
    that is one pass over the components: a component with a NUL character
    is refused by the interpreter; otherwise the place reached so far must
    be a directory, and a name that is missing in it is created. At the end
    the place reached must be a directory ([exist_ok] forgives nothing
    else). *)
Fixpoint makedirs_from (cs : list string) (cur : loc) (t : gmap loc node)
  : result unit * gmap loc node :=
  match cs with
  | [] => if is_dir_at t cur then (inr tt, t) else (inl FilesystemError, t)
  | c :: cs' =>
      if has_nul c then (inl ValueError, t)
      else if negb (is_dir_at t cur) then (inl FilesystemError, t)
      else if String.eqb c "." then makedirs_from cs' cur t
      else if String.eqb c ".." then makedirs_from cs' (parent cur) t
      else
        match t !! (cur ++ [c]) with
        | Some _ => makedirs_from cs' (cur ++ [c]) t
        | None => makedirs_from cs' (cur ++ [c]) (<[cur ++ [c] := Dir]> t)
        end
  end.

Definition makedirs (name : string) : M unit := λ st,
  if is_empty name then (inl FilesystemError, st)
  else
    let '(r, t) := makedirs_from (OsPath.components name) (start st name) (tree st) in
    (r, Fs (cwd st) t).

(** [with open(p, "w") as file: file.write(content)]. The name after the
    last slash is created or truncated in the directory the rest of the
    path leads to; a path that is empty or ends in a slash, or whose last
    name is a directory, cannot be opened for writing. *)
Definition write_file (p content : string) : M unit := λ st,
  if has_nul p then (inl ValueError, st)
  else
    let '(head, name) := OsPath.rcut p in
    if is_empty name || String.eqb name "." || String.eqb name ".." then (inl FilesystemError, st)
    else
      match walk (tree st) (start st p) (OsPath.components head) with
      | Some d =>
          if is_dir_at (tree st) d && negb (is_dir_at (tree st) (d ++ [name]))
          then (inr tt, Fs (cwd st) (<[d ++ [name] := File content]> (tree st)))
          else (inl FilesystemError, st)
      | None => (inl FilesystemError, st)
      end.

End Os.

(** ** The program *)

(** The project structure template: folder names and their subfolders, in
    the order of the dict literal. *)
Definition PROJECT_STRUCTURE : list (string * list string) :=
  [ ("public", []);
    ("src", ["components"; "layouts"; "pages"; "services"; "themes"; "utils"; "mockData"]) ].

Definition create_project_structure (base_dir : string)
    (structure : list (string * list string)) : M unit :=
  for_each structure (λ entry,
    let folder_path := OsPath.join base_dir [fst entry] in
    Os.makedirs folder_path ;;
    for_each (snd entry) (λ subfolder,
      Os.makedirs (OsPath.join folder_path [subfolder]))).

(** The triple-quoted literals of the source start with a newline and end
    with the four spaces that precede the closing quotes. *)
Definition COMPONENT_TEMPLATE : string := unlines
  [ "";
    "import React from 'react';";
    "";
    "const {name} = () => {{";
    "    return (";
    "        <div>";
    "            <h1>{title}</h1>";
    "        </div>";
    "    );";
    "}};";
    "";
    "export default {name};";
    "    " ].

Definition THEME_TEMPLATE : string := unlines
  [ "";
    "import {{ createTheme }} from '@mui/material/styles';";
    "";
    "const theme = createTheme({{";
    "    palette: {{";
    "        mode: '{mode}',";
    "        primary: {{";
    "            main: '{primaryColor}',";
    "        }},";
    "        secondary: {{";
    "            main: '{secondaryColor}',";
    "        }},";
    "    }},";
    "}});";
    "";
    "export default theme;";
    "    " ].

Definition INDEX_JS : string := unlines
  [ "";
    "import React from 'react';";
    "import ReactDOM from 'react-dom';";
    "import App from './App';";
    "";
    "ReactDOM.render(";
    "    <React.StrictMode>";
    "        <App />";
    "    </React.StrictMode>,";
    "    document.getElementById('root')";
    ");";
    "    " ].

Definition APP_JS : string := unlines
  [ "";
    "import React from 'react';";
    "import './App.css';";
    "import ThemeProvider from '@mui/material/styles/ThemeProvider';";
    "import theme from './themes/theme';";
    "";
    "function App() {";
    "    return (";
    "        <ThemeProvider theme={theme}>";
    "            <div>";
    "                <h1>Welcome to DashCraft!</h1>";
    "                <p>Your dashboard is ready to go.</p>";
    "            </div>";
    "        </ThemeProvider>";
    "    );";
    "}";
    "";
    "export default App;";
    "    " ].

Definition json_pair (k v : string) : string := quoted k +:+ ": " +:+ quoted v.

Definition PACKAGE_JSON : string := unlines
  [ "";
    "{";
    "  " +:+ json_pair "name" "dashcraft-app" +:+ ",";
    "  " +:+ json_pair "version" "1.0.0" +:+ ",";
    "  " +:+ quoted "private" +:+ ": true,";
    "  " +:+ quoted "dependencies" +:+ ": {";
    "    " +:+ json_pair "@mui/material" "^5.0.0" +:+ ",";
    "    " +:+ json_pair "@emotion/react" "^11.0.0" +:+ ",";
    "    " +:+ json_pair "@emotion/styled" "^11.0.0" +:+ ",";
    "    " +:+ json_pair "react" "^18.0.0" +:+ ",";
    "    " +:+ json_pair "react-dom" "^18.0.0" +:+ ",";
    "    " +:+ json_pair "react-scripts" "5.0.0";
    "  },";
    "  " +:+ quoted "scripts" +:+ ": {";
    "    " +:+ json_pair "start" "react-scripts start" +:+ ",";
    "    " +:+ json_pair "build" "react-scripts build" +:+ ",";
    "    " +:+ json_pair "test" "react-scripts test" +:+ ",";
    "    " +:+ json_pair "eject" "react-scripts eject";
    "  }";
    "}";
    "    " ].

(** The text of a component file: [template.format(name=..., title=...)],
    the keyword arguments evaluated from left to right. *)
Definition component_content (component : value) : result string :=
  name ← (id ← Py.getitem component "id"; Py.capitalize_method id);
  title ← (options ← Py.get component "options" (VDict []);
           Py.get options "title" (VStr "Component"));
  Py.format COMPONENT_TEMPLATE [("name", VStr name); ("title", title)].

(** [os.path.join(output_dir, "src", "components", f"{component['id']}.js")]. *)
Definition component_path (component : value) (output_dir : string) : result string :=
  id ← Py.getitem component "id";
  mret (OsPath.join output_dir ["src"; "components"; Py.str id +:+ ".js"]).

Definition generate_component (component : value) (output_dir : string) : M unit :=
  content ← lift (component_content component);
  file_path ← lift (component_path component output_dir);
  Os.makedirs (OsPath.dirname file_path) ;;
  Os.write_file file_path content.

Definition theme_content (theme : value) : result string :=
  mode ← Py.get theme "mode" (VStr "light");
  primaryColor ← Py.get theme "primaryColor" (VStr "#1976d2");
  secondaryColor ← Py.get theme "secondaryColor" (VStr "#ff4081");
  Py.format THEME_TEMPLATE
    [("mode", mode); ("primaryColor", primaryColor); ("secondaryColor", secondaryColor)].

Definition theme_path (output_dir : string) : string :=
  OsPath.join output_dir ["src"; "themes"; "theme.js"].

Definition generate_theme (theme : value) (output_dir : string) : M unit :=
  content ← lift (theme_content theme);
  let file_path := theme_path output_dir in
  Os.makedirs (OsPath.dirname file_path) ;;
  Os.write_file file_path content.

Definition index_js_path (output_dir : string) : string :=
  OsPath.join output_dir ["src"; "index.js"].

Definition generate_index_js (output_dir : string) : M unit :=
  let file_path := index_js_path output_dir in
  Os.makedirs (OsPath.dirname file_path) ;;
  Os.write_file file_path INDEX_JS.

Definition app_js_path (output_dir : string) : string :=
  OsPath.join output_dir ["src"; "App.js"].

Definition generate_app_js (output_dir : string) : M unit :=
  let file_path := app_js_path output_dir in
  Os.makedirs (OsPath.dirname file_path) ;;
  Os.write_file file_path APP_JS.

Definition package_json_path (output_dir : string) : string :=
  OsPath.join output_dir ["package.json"].

Definition generate_package_json (output_dir : string) : M unit :=
  Os.write_file (package_json_path output_dir) PACKAGE_JSON.

(** Lines 255 to 261 of [main]: what choice 1 does once the configuration
    is loaded and the output directory is known. *)
Definition main_create (config : value) (output_dir : string) : M unit :=
  create_project_structure output_dir PROJECT_STRUCTURE ;;
  generate_index_js output_dir ;;
  generate_app_js output_dir ;;
  generate_package_json output_dir ;;
  components ← lift (c ← Py.get config "components" (VList []); Py.iter c);
  for_each components (λ component, generate_component component output_dir) ;;
  theme ← lift (Py.get config "theme" (VDict []));
  generate_theme theme output_dir.

(** [main], given what the user types and what [load_yaml] returns for the
    file they name ([None] when it cannot be read). [choice] is the first
    answer, stripped; [answer] is the directory typed at the second prompt
    of the chosen branch. [purge_dashboard] is not defined anywhere in the
    module, so evaluating the call raises [NameError]. The dependency check
    that comes first and the messages are left out. *)
Definition main (choice : string) (config : value) (answer : string) : M unit :=
  if String.eqb choice "1" then
    if negb (Py.truthy config) then mret tt
    else
      let output_dir := if is_empty answer then "./output" else answer in
      main_create config output_dir
  else if String.eqb choice "2" then raise (NameError "purge_dashboard")
  else mret tt.

(** A file system with nothing but the root and a working directory. *)
Definition fs_home : fs :=
  Fs ["home"; "user"] (list_to_map [([], Dir); (["home"], Dir); (["home"; "user"], Dir)]).

Definition chart_config : value :=
  VDict [("components", VList [VDict [("id", VStr "chart")]]);
         ("theme", VDict [("mode", VStr "dark")])].

(** ** The interactive program

    The rest of the module talks to the terminal, imports modules and runs
    [pip]. A [world] is what that code can see and change: the global flag
    [dependencies_checked], the modules the interpreter can import, the
    lines waiting on standard input, the file system, and a trace of what
    was printed, prompted and installed, in the order it happened. What
    [pip] does for a package and what [yaml.safe_load] makes of a text are
    given with the world. The text of a caught exception is not modelled:
    [PrintError text] stands for [print(f"<text>{e}")]. *)

Module Cli.

Inductive event : Type :=
  | Print (text : string)
  | PrintError (text : string)
  | Prompt (text : string)
  | PipInstall (package_name : string).

(** [subprocess.check_call] returns when [pip] exits with status 0, after
    which some modules may have become importable, and raises otherwise. *)
Inductive pip_result : Type :=
  | Installed (modules : list string)
  | PipFailed.

Record world : Type := World {
  dependencies_checked : bool;
  importable : list string;
  pip : string → pip_result;
  safe_load : string → option value;
  stdin : list string;
  trace : list event;
  disk : fs
}.

Definition set_checked (b : bool) (w : world) : world :=
  World b (importable w) (pip w) (safe_load w) (stdin w) (trace w) (disk w).

Definition add_modules (modules : list string) (w : world) : world :=
  World (dependencies_checked w) (modules ++ importable w) (pip w) (safe_load w)
        (stdin w) (trace w) (disk w).

Definition set_stdin (lines : list string) (w : world) : world :=
  World (dependencies_checked w) (importable w) (pip w) (safe_load w)
        lines (trace w) (disk w).

Definition log (e : event) (w : world) : world :=
  World (dependencies_checked w) (importable w) (pip w) (safe_load w)
        (stdin w) (trace w ++ [e]) (disk w).

Definition set_disk (d : fs) (w : world) : world :=
  World (dependencies_checked w) (importable w) (pip w) (safe_load w)
        (stdin w) (trace w) d.

(** What can end the program early: an exception of the generation code,
    [EOFError] from [input], [SystemExit] from [sys.exit]. *)
Inductive signal : Type :=
  | Uncaught (e : exn)
  | EOFError
  | SystemExit (code : Z).

Definition W (A : Type) : Type := world → (signal + A) * world.

#[global] Instance W_ret : MRet W := λ A a w, (inr a, w).

#[global] Instance W_bind : MBind W := λ A B f m w,
  match m w with
  | (inr a, w') => f a w'
  | (inl s, w') => (inl s, w')
  end.

Definition print (text : string) : W unit := λ w, (inr tt, log (Print text) w).

Definition print_error (text : string) : W unit := λ w, (inr tt, log (PrintError text) w).

(** [input(prompt)]: the prompt is written, then a line is read. *)
Definition input (prompt : string) : W string := λ w,
  match stdin w with
  | line :: rest => (inr line, set_stdin rest (log (Prompt prompt) w))
  | [] => (inl EOFError, log (Prompt prompt) w)
  end.

Definition sys_exit {A : Type} (code : Z) : W A := λ w, (inl (SystemExit code), w).

(** A computation on the file system, run on the disk of the world. *)
Definition on_disk {A : Type} (m : M A) : W A := λ w,
  match m (disk w) with
  | (inr a, d) => (inr a, set_disk d w)
  | (inl e, d) => (inl (Uncaught e), set_disk d w)
  end.

Fixpoint for_each {A : Type} (l : list A) (body : A → W unit) : W unit :=
  match l with
  | [] => mret tt
  | x :: l' => body x ;; for_each l' body
  end.

(** [str.strip()]: the ASCII characters that [str.isspace] accepts. *)
Definition is_space (c : ascii) : bool :=
  let n := nat_of_ascii c in
  (9 <=? n)%nat && (n <=? 13)%nat || (28 <=? n)%nat && (n <=? 32)%nat.

Fixpoint lstrip (s : string) : string :=
  match s with
  | "" => ""
  | String c s' => if is_space c then lstrip s' else s
  end.

Fixpoint all_space (s : string) : bool :=
  match s with
  | "" => true
  | String c s' => is_space c && all_space s'
  end.

Fixpoint rstrip (s : string) : string :=
  match s with
  | "" => ""
  | String c s' => if all_space (String c s') then "" else String c (rstrip s')
  end.

Definition strip (s : string) : string := rstrip (lstrip s).

Record package : Type := Package {
  name : string;
  import_name : string
}.

Definition REQUIRED_PACKAGES : list package := [Package "pyyaml" "yaml"].

(** [subprocess.check_call([sys.executable, "-m", "pip", "install", p])]:
    [true] when it returns, [false] when it raises. *)
Definition check_call_pip (package_name : string) : W bool := λ w,
  match pip w package_name with
  | Installed modules => (inr true, add_modules modules (log (PipInstall package_name) w))
  | PipFailed => (inr false, log (PipInstall package_name) w)
  end.

Definition install_package (package_name : string) : W unit :=
  installed ← check_call_pip package_name;
  if installed : bool then print ("Successfully installed " +:+ package_name +:+ ".")
  else
    print_error ("Failed to install " +:+ package_name +:+ ": ") ;;
    sys_exit 1.

(** The first loop of [check_and_resolve_dependencies]: the names of the
    packages whose module cannot be imported. *)
Definition find_missing (packages : list package) : W (list string) := λ w,
  (inr (name <$> filter (λ p, import_name p ∉ importable w) packages), w).

Definition check_and_resolve_dependencies : W unit := λ w,
  if dependencies_checked w then (inr tt, w)
  else
    (missing_packages ← find_missing REQUIRED_PACKAGES;
     match missing_packages with
     | [] => mret tt
     | _ :: _ =>
         print ("Missing dependencies: " +:+ Py.join_comma missing_packages) ;;
         answer ← input "Do you want to install the missing dependencies? (yes/no): ";
         let choice := lower (strip answer) in
         if bool_decide (choice ∈ ["yes"; "y"]) then
           for_each missing_packages install_package
         else
           print "Dependencies are required to run DashCraft. Exiting..." ;;
           sys_exit 1
     end ;;
     (λ w', (inr tt, set_checked true w')) ;;
     print "All dependencies are satisfied. You're ready to run DashCraft!") w.

(** [load_yaml]: whatever goes wrong in the [try] block (the module
    [yaml] cannot be imported, the file cannot be opened, the text is not
    YAML) is caught, reported and turned into [None]. *)
Definition load_yaml (file_path : string) : W value := λ w,
  let failed := (inr VNone, log (PrintError "Error reading YAML file: ") w) in
  if bool_decide ("yaml" ∈ importable w) then
    match read_file (disk w) file_path with
    | Some text =>
        match safe_load w text with
        | Some config => (inr config, w)
        | None => failed
        end
    | None => failed
    end
  else failed.

Definition main : W unit :=
  check_and_resolve_dependencies ;;
  print "Welcome to DashCraft! What would you like to do?" ;;
  print "1: Create Dashboard from YAML" ;;
  print "2: Purge Existing Dashboard" ;;
  answer ← input "Enter your choice (1/2): ";
  let choice := strip answer in
  if String.eqb choice "1" then
    yaml_file ← input "Enter the path to the YAML configuration file: ";
    config ← load_yaml yaml_file;
    if negb (Py.truthy config) then mret tt
    else
      answer ← input "Enter the output directory for the dashboard (default: './output'): ";
      let output_dir := if is_empty answer then "./output" else answer in
      on_disk (main_create config output_dir) ;;
      print ("Dashboard created successfully at '" +:+ output_dir
             +:+ "'. Run 'npm install' and 'npm start' to launch.")
  else if String.eqb choice "2" then
    target_dir ← input "Enter the path to the dashboard directory to purge: ";
    on_disk (raise (NameError "purge_dashboard"))
  else print "Invalid choice. Exiting.".

End Cli.

(** ** Vocabulary of the statements *)

(** A plain name: what a single directory entry can be called. *)
Definition plain (n : string) : bool :=
  negb (is_empty n) && negb (has_slash n) && negb (has_nul n)
  && negb (String.eqb n ".") && negb (String.eqb n "..").

Definition is_dir_node (n : node) : bool :=
  match n with Dir => true | File _ => false end.

(** [keeps t t']: every entry of [t] is still there in [t'], as a directory
    if it was one and as a regular file if it was one. *)
Definition keeps (t t' : gmap loc node) : Prop :=
  ∀ l n, t !! l = Some n → ∃ n', t' !! l = Some n' ∧ is_dir_node n' = is_dir_node n.

(** [grows t t']: [t'] is [t] with some new directories. *)
Definition grows (t t' : gmap loc node) : Prop :=
  ∀ l, t' !! l = t !! l ∨ (t !! l = None ∧ t' !! l = Some Dir).

(** [extends st st']: same working directory, and [st'] keeps what [st]
    has. *)
Definition extends (st st' : fs) : Prop :=
  cwd st' = cwd st ∧ keeps (tree st) (tree st').

(** A computation that only adds to the file system. *)
Definition monotone {A : Type} (m : M A) : Prop :=
  ∀ st r st', m st = (r, st') → extends st st'.

(** The program never reads the file system: what it does to it is a fixed
    list of operations, cut short by the first exception. *)
Inductive op : Type :=
  | Makedirs (name : string)
  | WriteFile (p content : string).

Inductive action : Type :=
  | Do (o : op)
  | Raise (e : exn).

Definition run_op (o : op) : M unit :=
  match o with
  | Makedirs name => Os.makedirs name
  | WriteFile p content => Os.write_file p content
  end.

Fixpoint run (l : list action) : M unit :=
  match l with
  | [] => mret tt
  | Do o :: l' => run_op o ;; run l'
  | Raise e :: _ => raise e
  end.

Definition plan_pure {A : Type} (r : result A) (k : A → list action) : list action :=
  match r with
  | inr a => k a
  | inl e => [Raise e]
  end.

Definition plan_generate (file_path content : string) : list action :=
  [Do (Makedirs (OsPath.dirname file_path)); Do (WriteFile file_path content)].

Definition plan_structure (base_dir : string) (structure : list (string * list string))
  : list action :=
  flat_map (λ entry,
    let folder_path := OsPath.join base_dir [fst entry] in
    Do (Makedirs folder_path)
    :: map (λ subfolder, Do (Makedirs (OsPath.join folder_path [subfolder]))) (snd entry))
    structure.

Definition plan_component (output_dir : string) (component : value) : list action :=
  plan_pure (component_content component) (λ content,
  plan_pure (component_path component output_dir) (λ file_path,
  plan_generate file_path content)).

Definition plan_theme (output_dir : string) (theme : value) : list action :=
  plan_pure (theme_content theme) (λ content,
  plan_generate (theme_path output_dir) content).

Definition plan_main (config : value) (output_dir : string) : list action :=
  plan_structure output_dir PROJECT_STRUCTURE
  ++ plan_generate (index_js_path output_dir) INDEX_JS
  ++ plan_generate (app_js_path output_dir) APP_JS
  ++ [Do (WriteFile (package_json_path output_dir) PACKAGE_JSON)]
  ++ plan_pure (c ← Py.get config "components" (VList []); Py.iter c) (λ components,
       flat_map (plan_component output_dir) components
       ++ plan_pure (Py.get config "theme" (VDict [])) (plan_theme output_dir)).

(** Two invariants of a second run of the same operations, started in the
    file system [final] that the first run left: the second run's file
    system [s] has the entries of [final] with their kinds, and wherever it
    differs from [final] it holds the very file the first run held at the
    same point of its progress [t]. *)
Definition same_kinds (s final : fs) : Prop :=
  keeps (tree s) (tree final) ∧ keeps (tree final) (tree s).

Definition patched (s final t : fs) : Prop :=
  ∀ l, tree s !! l = tree final !! l
       ∨ ∃ content, tree s !! l = Some (File content) ∧ tree t !! l = Some (File content).

(** [leads st output_dir parts d]: in [st], the output directory followed
    by the names [parts] resolves to the directory [d]. *)
Definition leads (st : fs) (output_dir : string) (parts : list string) (d : loc) : Prop :=
  has_nul output_dir = false
  ∧ walk (tree st) (start st output_dir) (OsPath.components output_dir ++ parts) = Some d
  ∧ is_dir_at (tree st) d = true.

(** What every generator does with its path and text. *)
Definition generate (file_path content : string) : M unit :=
  Os.makedirs (OsPath.dirname file_path) ;; Os.write_file file_path content.

(** *** Well-formed configurations *)

(** An id that can serve as a file name. *)
Definition valid_id (id : string) : bool := negb (has_slash id) && negb (has_nul id).

Definition component_id (component : value) : option string :=
  match component with
  | VDict d =>
      match Py.dict_lookup "id" d with
      | Some (VStr id) => Some id
      | _ => None
      end
  | _ => None
  end.

(** The title a component asks for: [options] absent or a mapping. *)
Definition component_title (component : value) : option value :=
  match Py.get component "options" (VDict []) with
  | inr (VDict options) =>
      Some (default (VStr "Component") (Py.dict_lookup "title" options))
  | _ => None
  end.

Definition valid_component (component : value) : bool :=
  match component_id component, component_title component with
  | Some id, Some _ => valid_id id
  | _, _ => false
  end.

Definition config_components (config : value) : list value :=
  match Py.get config "components" (VList []) with
  | inr (VList components) => components
  | _ => []
  end.

Definition config_theme (config : value) : list (string * value) :=
  match Py.get config "theme" (VDict []) with
  | inr (VDict theme) => theme
  | _ => []
  end.

(** [components] absent or a list of well-formed components, [theme]
    absent or a mapping. *)
Definition valid_config (config : value) : bool :=
  match Py.get config "components" (VList []), Py.get config "theme" (VDict []) with
  | inr (VList components), inr (VDict _) => forallb valid_component components
  | _, _ => false
  end.

Definition ids_of (components : list value) : list string :=
  omap component_id components.

(** *** The generated texts, written out *)

Fixpoint concat_strings (l : list string) : string :=
  match l with
  | [] => ""
  | s :: l' => s +:+ concat_strings l'
  end.

Definition component_text (name title : string) : string := concat_strings
  [ unlines [""; "import React from 'react';"; ""; "const "];
    name;
    unlines [" = () => {"; "    return ("; "        <div>"; "            <h1>"];
    title;
    unlines ["</h1>"; "        </div>"; "    );"; "};"; ""; "export default "];
    name;
    unlines [";"; "    "] ].

Definition theme_text (mode primaryColor secondaryColor : string) : string := concat_strings
  [ unlines [""; "import { createTheme } from '@mui/material/styles';"; "";
             "const theme = createTheme({"; "    palette: {"; "        mode: '"];
    mode;
    unlines ["',"; "        primary: {"; "            main: '"];
    primaryColor;
    unlines ["',"; "        },"; "        secondary: {"; "            main: '"];
    secondaryColor;
    unlines ["',"; "        },"; "    },"; "});"; ""; "export default theme;"; "    "] ].

Definition theme_field (theme : list (string * value)) (k fallback : string) : string :=
  Py.str (default (VStr fallback) (Py.dict_lookup k theme)).

Definition theme_text_of (theme : list (string * value)) : string :=
  theme_text (theme_field theme "mode" "light")
             (theme_field theme "primaryColor" "#1976d2")
             (theme_field theme "secondaryColor" "#ff4081").

Definition component_text_of (component : value) : string :=
  component_text (capitalize (default "" (component_id component)))
                 (Py.str (default VNone (component_title component))).


(** *** Where the files go *)

(** The directories that [create_project_structure] makes for
    [PROJECT_STRUCTURE], in the order it makes them. *)
Definition STRUCTURE_DIRS : list (list string) :=
  [ ["public"]; ["src"]; ["src"; "components"]; ["src"; "layouts"]; ["src"; "pages"];
    ["src"; "services"]; ["src"; "themes"]; ["src"; "utils"]; ["src"; "mockData"] ].

(** [scaffolded st output_dir d]: the output directory resolves to [d], and
    the directories of the project structure are there. *)
Definition scaffolded (st : fs) (output_dir : string) (d : loc) : Prop :=
  leads st output_dir [] d
  ∧ Forall (λ parts, is_dir_at (tree st) (d ++ parts) = true) STRUCTURE_DIRS.

Definition index_js_loc (d : loc) : loc := d ++ ["src"; "index.js"].
Definition app_js_loc (d : loc) : loc := d ++ ["src"; "App.js"].
Definition package_json_loc (d : loc) : loc := d ++ ["package.json"].
Definition theme_loc (d : loc) : loc := d ++ ["src"; "themes"; "theme.js"].
Definition component_loc (d : loc) (id : string) : loc :=
  d ++ ["src"; "components"; id +:+ ".js"].

Definition fixed_writes (d : loc) : list (loc * string) :=
  [ (index_js_loc d, INDEX_JS); (app_js_loc d, APP_JS); (package_json_loc d, PACKAGE_JSON) ].

Definition component_write (d : loc) (component : value) : loc * string :=
  (component_loc d (default "" (component_id component)), component_text_of component).

Definition theme_write (d : loc) (theme : list (string * value)) : loc * string :=
  (theme_loc d, theme_text_of theme).

(** The files of one run, in the order they are written. *)
Definition writes (d : loc) (config : value) : list (loc * string) :=
  fixed_writes d
  ++ map (component_write d) (config_components config)
  ++ [theme_write d (config_theme config)].

Definition write_all (ws : list (loc * string)) (t : gmap loc node) : gmap loc node :=
  foldl (λ t w, <[w.1 := File w.2]> t) t ws.

Definition put_all (ws : list (loc * string)) (m : gmap loc string) : gmap loc string :=
  foldl (λ m w, <[w.1 := w.2]> m) m ws.

(** Writing a regular file at a resolved location: refused when a
    directory is in the way. *)
Definition put (w : loc * string) : M unit := λ st,
  if is_dir_at (tree st) w.1 then (inl FilesystemError, st)
  else (inr tt, Fs (cwd st) (<[w.1 := File w.2]> (tree st))).

(** What [main_create] does after [create_project_structure]. *)
Definition generators (config : value) (output_dir : string) : M unit :=
  generate_index_js output_dir ;;
  generate_app_js output_dir ;;
  generate_package_json output_dir ;;
  components ← lift (c ← Py.get config "components" (VList []); Py.iter c);
  for_each components (λ component, generate_component component output_dir) ;;
  theme ← lift (Py.get config "theme" (VDict []));
  generate_theme theme output_dir.

(** The text that a list of writes leaves at a location: the last one
    written there. *)
Fixpoint final_content (ws : list (loc * string)) (l : loc) : option string :=
  match ws with
  | [] => None
  | w :: ws' =>
      match final_content ws' l with
      | Some content => Some content
      | None => if decide (w.1 = l) then Some w.2 else None
      end
  end.

(** [clear_for t' s]: nothing in [s] is in the way of the directories of
    [t']. *)
Definition clear_for (t' s : gmap loc node) : Prop :=
  ∀ l, is_dir_at t' l = true → s !! l = None ∨ is_dir_at s l = true.

(** *** Configurations used as examples *)

Definition escaping_component : value := VDict [("id", VStr "../../../evil")].

Definition missing_id_config : value :=
  VDict [("components", VList [VDict [("type", VStr "chart")]])].

Definition duplicate_ids_config : value :=
  VDict [("components", VList
    [ VDict [("id", VStr "chart"); ("options", VDict [("title", VStr "Sales")])];
      VDict [("id", VStr "chart"); ("options", VDict [("title", VStr "Costs")])] ])].

(** A file system in which [./output] is a generated project. *)
Definition fs_generated : fs := (main "1" chart_config "" fs_home).2.

(** *** More example configurations and file systems *)

(** The YAML line [theme:] with nothing after it. *)
Definition null_theme_config : value :=
  VDict [("components", VList [VDict [("id", VStr "chart")]]); ("theme", VNone)].



(** A working directory in which [output] exists and [output/src] is a
    regular file. *)
Definition fs_blocked : fs :=
  Fs ["home"; "user"]
     (list_to_map [ ([], Dir); (["home"], Dir); (["home"; "user"], Dir);
                    (["home"; "user"; "output"], Dir);
                    (["home"; "user"; "output"; "src"], File "notes") ]).

(** The paths that [create_project_structure] hands to [os.makedirs], in
    order. *)
Definition structure_names (base_dir : string) (structure : list (string * list string))
  : list string :=
  flat_map (λ entry,
    let folder_path := OsPath.join base_dir [fst entry] in
    folder_path :: map (λ subfolder, OsPath.join folder_path [subfolder]) (snd entry))
    structure.

(** *** Example worlds for the interactive program *)

Definition READY : string :=
  "All dependencies are satisfied. You're ready to run DashCraft!".

(** A YAML text for [chart_config], and a loader that knows this text
    only. *)
Definition chart_yaml : string :=
  unlines ["components: [{id: chart}]"; "theme: {mode: dark}"].

Definition chart_loader (text : string) : option value :=
  if String.eqb text chart_yaml then Some chart_config else None.

Definition fs_with_yaml : fs :=
  Fs ["home"; "user"]
     (list_to_map [ ([], Dir); (["home"], Dir); (["home"; "user"], Dir);
                    (["home"; "user"; "dash.yaml"], File chart_yaml) ]).

(** A first start of the program: nothing checked yet, the given modules
    importable, a [pip] that installs [yaml] for [pyyaml] and fails for
    every other package, the given lines typed by the user. *)
Definition world_start (modules lines : list string) : Cli.world :=
  Cli.World false modules
    (λ package_name,
       if String.eqb package_name "pyyaml" then Cli.Installed ["yaml"] else Cli.PipFailed)
    chart_loader lines [] fs_with_yaml.

(** What the [try] block of [load_yaml] evaluates to, when nothing in it
    raises. *)
Definition loaded (w : Cli.world) (file_path : string) : option value :=
  if bool_decide ("yaml" ∈ Cli.importable w) then
    text ← read_file (Cli.disk w) file_path; Cli.safe_load w text
  else None.


(** ** The model on concrete inputs *)

Example capitalize_chart : capitalize "chart" = "Chart".
Proof. reflexivity. Qed.

Example capitalize_lowers_the_rest : capitalize "myChart" = "Mychart".
Proof. reflexivity. Qed.

Example format_braces :
  Py.format "a {{ {x} }} {y}" [("x", VStr "{1}"); ("y", VInt (-12))] = inr "a { {1} } -12".
Proof. vm_compute. reflexivity. Qed.

Example str_of_list :
  Py.str (VList [VStr "it's"; VNone; VDict [("k", VBool true)]]) =
  "[" +:+ quoted "it's" +:+ ", None, {'k': True}]".
Proof. vm_compute. reflexivity. Qed.

Example join_default :
  OsPath.join "./output" ["src"; "components"; "chart.js"] = "./output/src/components/chart.js".
Proof. reflexivity. Qed.

Example join_trailing_slash : OsPath.join "out/" ["src"; "index.js"] = "out/src/index.js".
Proof. reflexivity. Qed.

Example join_empty_root : OsPath.join "" ["src"; "index.js"] = "src/index.js".
Proof. reflexivity. Qed.

Example join_absolute_part : OsPath.join "out" ["src"; "components"; "/etc/x.js"] = "/etc/x.js".
Proof. reflexivity. Qed.

Example dirname_examples :
  map OsPath.dirname ["a/b/c.js"; "/x.js"; "x.js"; "a//b"; "//a"; "a/"; "/a/b/"; ""] =
  ["a/b"; "/"; ""; "a"; "//"; "a"; "/a/b"; ""].
Proof. reflexivity. Qed.

Example components_examples :
  map OsPath.components ["./out/src"; "/a//b/"; ""; "/"; "a/../b"] =
  [["."; "out"; "src"]; ["a"; "b"]; []; []; ["a"; ".."; "b"]].
Proof. vm_compute. reflexivity. Qed.

Example component_template_rendered :
  Py.format COMPONENT_TEMPLATE [("name", VStr "Chart"); ("title", VStr "Sales")] =
  inr (unlines
    [ "";
      "import React from 'react';";
      "";
      "const Chart = () => {";
      "    return (";
      "        <div>";
      "            <h1>Sales</h1>";
      "        </div>";
      "    );";
      "};";
      "";
      "export default Chart;";
      "    " ]).
Proof. vm_compute. reflexivity. Qed.

Example component_text_is_the_template :
  component_text "Chart" "Sales" = unlines
    [ "";
      "import React from 'react';";
      "";
      "const Chart = () => {";
      "    return (";
      "        <div>";
      "            <h1>Sales</h1>";
      "        </div>";
      "    );";
      "};";
      "";
      "export default Chart;";
      "    " ].
Proof. vm_compute. reflexivity. Qed.

Example theme_text_is_the_template :
  theme_text "dark" "#1976d2" "#ff4081" = unlines
    [ "";
      "import { createTheme } from '@mui/material/styles';";
      "";
      "const theme = createTheme({";
      "    palette: {";
      "        mode: 'dark',";
      "        primary: {";
      "            main: '#1976d2',";
      "        },";
      "        secondary: {";
      "            main: '#ff4081',";
      "        },";
      "    },";
      "});";
      "";
      "export default theme;";
      "    " ].
Proof. vm_compute. reflexivity. Qed.

Example structure_dirs_from_template :
  STRUCTURE_DIRS =
  flat_map (λ entry, [fst entry] :: map (λ subfolder, [fst entry; subfolder]) (snd entry))
    PROJECT_STRUCTURE.
Proof. reflexivity. Qed.

(** The example of the specification: one component [chart], a dark
    theme, the default output directory. *)
Example chart_run :
  let r := main "1" chart_config "" fs_home in
  r.1 = inr tt
  ∧ read_file r.2 "./output/src/components/chart.js" = Some (component_text "Chart" "Component")
  ∧ read_file r.2 "./output/src/themes/theme.js" = Some (theme_text "dark" "#1976d2" "#ff4081")
  ∧ read_file r.2 "./output/src/index.js" = Some INDEX_JS
  ∧ read_file r.2 "./output/src/App.js" = Some APP_JS
  ∧ read_file r.2 "./output/package.json" = Some PACKAGE_JSON
  ∧ size (files r.2) = 5.
Proof. vm_compute. repeat split; reflexivity. Qed.

(** A configuration that is empty, or that could not be loaded, makes
    [main] return without touching anything; so does an unknown choice. *)
Example empty_config_returns st answer :
  main "1" VNone answer st = (inr tt, st) ∧ main "1" (VDict []) answer st = (inr tt, st)
  ∧ main "3" chart_config answer st = (inr tt, st).
Proof. repeat split; reflexivity. Qed.

(** A component whose [options] is null makes the run fail with
    [AttributeError]; a title that is not a string is rendered by [str]. *)
Example null_options_raises :
  component_content (VDict [("id", VStr "a"); ("options", VNone)]) = inl AttributeError.
Proof. reflexivity. Qed.

Example integer_title_rendered :
  component_content (VDict [("id", VStr "a"); ("options", VDict [("title", VInt 42)])])
  = inr (component_text "A" "42").
Proof. vm_compute. reflexivity. Qed.

(** A regular file in the way of a directory makes [makedirs] fail. *)
Example makedirs_blocked_by_file :
  let st := Fs [] (list_to_map [([], Dir); (["src"], File "x")]) in
  (Os.makedirs "src/components" st).1 = inl FilesystemError
  ∧ (Os.makedirs "src" st).1 = inl FilesystemError.
Proof. vm_compute. split; reflexivity. Qed.

(** ** Path strings *)

Section path_strings.


Implicit Types a b n p s : string.

Lemma sapp_cons c a b : String c a +:+ b = String c (a +:+ b).
Proof. reflexivity. Qed.

Lemma sapp_nil_l b : "" +:+ b = b.
Proof. reflexivity. Qed.

Lemma sapp_nil_r a : a +:+ "" = a.
Proof. induction a as [|c a IH]; [done|]. by rewrite sapp_cons, IH. Qed.

Lemma sapp_assoc a b n : (a +:+ b) +:+ n = a +:+ (b +:+ n).
Proof. induction a as [|c a IH]; [done|]. by rewrite !sapp_cons, IH. Qed.

Lemma is_empty_true s : is_empty s = true → s = "".
Proof. by destruct s. Qed.

Lemma is_empty_app a b : is_empty (a +:+ b) = is_empty a && is_empty b.
Proof. by destruct a. Qed.

Lemma existsb_char_app f a b :
  existsb_char f (a +:+ b) = existsb_char f a || existsb_char f b.
Proof.
  induction a as [|c a IH]; [done|].
  rewrite sapp_cons. simpl. rewrite IH. by rewrite orb_assoc.
Qed.

Lemma pieces_not_nil p : OsPath.pieces p ≠ [].
Proof.
  destruct p as [|c p]; [done|]. simpl.
  destruct (is_slash c); [done|]. by destruct (OsPath.pieces p).
Qed.

Lemma pieces_app_slash a b :
  OsPath.pieces (a +:+ String "/" b) = OsPath.pieces a ++ OsPath.pieces b.
Proof.
  induction a as [|c a IH]; [done|].
  rewrite sapp_cons. simpl. rewrite IH.
  destruct (is_slash c); [done|].
  pose proof (pieces_not_nil a). by destruct (OsPath.pieces a).
Qed.

Lemma pieces_no_slash n : has_slash n = false → OsPath.pieces n = [n].
Proof.
  induction n as [|c n IH]; [done|]. unfold has_slash. simpl.
  intros [Hc Hn]%orb_false_iff. rewrite Hc. by rewrite IH.
Qed.

Lemma components_empty : OsPath.components "" = [].
Proof. reflexivity. Qed.

Lemma components_app_slash a b :
  OsPath.components (a +:+ String "/" b) = OsPath.components a ++ OsPath.components b.
Proof. unfold OsPath.components. by rewrite pieces_app_slash, filter_app. Qed.

Lemma components_plain n : plain n = true → OsPath.components n = [n].
Proof.
  unfold plain. rewrite !andb_true_iff, !negb_true_iff. intros [[[[He Hs] _] _] _].
  unfold OsPath.components. rewrite pieces_no_slash by done.
  rewrite filter_cons_True; [done|]. by destruct n.
Qed.

Lemma ends_with_slash_inv a : ends_with_slash a = true → ∃ a', a = a' +:+ "/".
Proof.
  induction a as [|c a IH]; [done|]. simpl. destruct a as [|c' a].
  - unfold is_slash. intros ->%Ascii.eqb_eq. by exists "".
  - intros [a' ->]%IH. by exists (String c a').
Qed.

Lemma all_slashes_components s : OsPath.all_slashes s = true → OsPath.components s = [].
Proof.
  induction s as [|c s IH]; [done|]. simpl. intros [Hc Hs]%andb_true_iff.
  unfold OsPath.components in *. simpl. rewrite Hc.
  rewrite filter_cons_False by naive_solver. auto.
Qed.

Lemma components_app_slashes a z :
  OsPath.all_slashes z = true → OsPath.components (a +:+ z) = OsPath.components a.
Proof.
  destruct z as [|c z]; [by rewrite sapp_nil_r|]. simpl. intros [Hc Hz]%andb_true_iff.
  apply Ascii.eqb_eq in Hc as ->.
  by rewrite components_app_slash, (all_slashes_components z), app_nil_r.
Qed.

Lemma rstrip_slashes_spec s :
  ∃ z, OsPath.all_slashes z = true ∧ s = OsPath.rstrip_slashes s +:+ z.
Proof.
  induction s as [|c s (z & Hz & IH)]; [by exists ""|].
  cbn [OsPath.rstrip_slashes]. destruct (OsPath.all_slashes (String c s)) eqn:Hall.
  - by exists (String c s).
  - exists z. split; [done|]. by rewrite sapp_cons, <-IH.
Qed.

Lemma components_rstrip s :
  OsPath.components (OsPath.rstrip_slashes s) = OsPath.components s.
Proof.
  destruct (rstrip_slashes_spec s) as (z & Hz & Hs).
  rewrite Hs at 2. by rewrite components_app_slashes.
Qed.

Lemma rstrip_not_all_slashes s :
  OsPath.all_slashes s = false →
  is_empty (OsPath.rstrip_slashes s) = false ∧
  OsPath.isabs (OsPath.rstrip_slashes s) = OsPath.isabs s.
Proof. destruct s as [|c s]; [done|]. cbn [OsPath.rstrip_slashes]. by intros ->. Qed.

(** The head of [split] names the same directory as the text before the
    last name. *)
Lemma split_head head :
  is_empty head = false →
  let d := if negb (is_empty head) && negb (OsPath.all_slashes head)
           then OsPath.rstrip_slashes head else head in
  is_empty d = false ∧ OsPath.isabs d = OsPath.isabs head
  ∧ OsPath.components d = OsPath.components head.
Proof.
  intros He. rewrite He. simpl. destruct (OsPath.all_slashes head) eqn:Hall; simpl; [done|].
  destruct (rstrip_not_all_slashes _ Hall) as [-> ->]. by rewrite components_rstrip.
Qed.

Lemma rcut_no_slash n : has_slash n = false → OsPath.rcut n = ("", n).
Proof.
  induction n as [|c n IH]; [done|]. unfold has_slash. simpl.
  intros [Hc Hn]%orb_false_iff. rewrite IH by done. simpl. by rewrite Hc.
Qed.

Lemma rcut_app_slash a n :
  has_slash n = false → OsPath.rcut (a +:+ String "/" n) = (a +:+ "/", n).
Proof.
  intros Hn. induction a as [|c a IH].
  - rewrite sapp_nil_l. simpl. by rewrite rcut_no_slash.
  - rewrite !sapp_cons. simpl. rewrite IH. by rewrite is_empty_app, andb_false_r.
Qed.

Lemma plain_no_slash n : plain n = true → has_slash n = false.
Proof. unfold plain. rewrite !andb_true_iff, !negb_true_iff. tauto. Qed.

Lemma plain_not_empty n : plain n = true → is_empty n = false.
Proof. unfold plain. rewrite !andb_true_iff, !negb_true_iff. tauto. Qed.

Lemma plain_no_nul n : plain n = true → has_nul n = false.
Proof. unfold plain. rewrite !andb_true_iff, !negb_true_iff. tauto. Qed.

Lemma plain_not_absolute n : plain n = true → starts_with_slash n = false.
Proof.
  intros Hn%plain_no_slash. destruct n as [|c n]; [done|].
  unfold has_slash in Hn. simpl in *. by apply orb_false_iff in Hn as [-> _].
Qed.

(** What one step of [join] with a plain name does to the path. *)
Lemma join2_plain a n :
  plain n = true →
  is_empty (OsPath.join2 a n) = false
  ∧ OsPath.isabs (OsPath.join2 a n) = OsPath.isabs a
  ∧ has_nul (OsPath.join2 a n) = has_nul a
  ∧ OsPath.components (OsPath.join2 a n) = OsPath.components a ++ [n]
  ∧ ∃ head, OsPath.rcut (OsPath.join2 a n) = (head, n)
      ∧ OsPath.components head = OsPath.components a
      ∧ is_empty head = is_empty a
      ∧ OsPath.isabs head = OsPath.isabs a.
Proof.
  intros Hn. unfold OsPath.join2. rewrite (plain_not_absolute n Hn).
  pose proof (plain_not_empty n Hn) as Hne. pose proof (plain_no_nul n Hn) as Hnul.
  pose proof (plain_no_slash n Hn) as Hsl.
  destruct (is_empty a) eqn:Ha; simpl.
  { apply is_empty_true in Ha as ->. rewrite sapp_nil_l, (components_plain n) by done.
    repeat split; try done; [by apply plain_not_absolute|].
    exists "". by rewrite rcut_no_slash. }
  destruct (ends_with_slash a) eqn:Hend.
  - destruct (ends_with_slash_inv a Hend) as [a' ->].
    unfold has_nul in *. rewrite is_empty_app, Ha, existsb_char_app, Hnul, orb_false_r.
    repeat split; try done.
    + by destruct a'.
    + rewrite sapp_assoc. change ("/" +:+ n) with (String "/" n).
      rewrite components_app_slash, (components_plain n) by done.
      change "/" with (String "/" ""). by rewrite components_app_slash, components_empty, app_nil_r.
    + exists (a' +:+ "/"). rewrite sapp_assoc. change ("/" +:+ n) with (String "/" n).
      by rewrite rcut_app_slash.
  - unfold has_nul in *. rewrite is_empty_app, Ha, !existsb_char_app, Hnul. simpl.
    rewrite !orb_false_r.
    repeat split; try done.
    + by destruct a.
    + change ("/" +:+ n) with (String "/" n).
      by rewrite components_app_slash, (components_plain n).
    + exists (a +:+ "/"). change ("/" +:+ n) with (String "/" n).
      rewrite rcut_app_slash by done. repeat split; try done.
      * change "/" with (String "/" ""). by rewrite components_app_slash, components_empty, app_nil_r.
      * by rewrite is_empty_app, Ha.
      * by destruct a.
Qed.

Lemma join_snoc a parts n : OsPath.join a (parts ++ [n]) = OsPath.join2 (OsPath.join a parts) n.
Proof. unfold OsPath.join. by rewrite foldl_app. Qed.

Lemma join_plain a parts :
  Forall (λ n, plain n = true) parts →
  OsPath.isabs (OsPath.join a parts) = OsPath.isabs a
  ∧ has_nul (OsPath.join a parts) = has_nul a
  ∧ OsPath.components (OsPath.join a parts) = OsPath.components a ++ parts
  ∧ is_empty (OsPath.join a parts) = is_empty a && bool_decide (parts = []).
Proof.
  induction parts as [|n parts IH] using rev_ind.
  - intros _. simpl. by rewrite app_nil_r, andb_true_r.
  - intros [Hparts Hn]%Forall_app. apply Forall_inv in Hn.
    destruct (IH Hparts) as (Habs & Hnul & Hcs & _).
    rewrite join_snoc. destruct (join2_plain (OsPath.join a parts) n Hn) as (-> & -> & -> & -> & _).
    rewrite Habs, Hnul, Hcs, <-app_assoc.
    repeat split; try done.
    rewrite bool_decide_eq_false_2, andb_false_r; [done|]. by destruct parts.
Qed.

End path_strings.

(** ** The file system under [makedirs] and [write_file] *)

Section file_system.


Implicit Types t s : gmap loc node.
Implicit Types cur d l : loc.
Implicit Types cs parts : list string.

Lemma keeps_refl t : keeps t t.
Proof. intros l n ?. eauto. Qed.

Lemma keeps_trans t1 t2 t3 : keeps t1 t2 → keeps t2 t3 → keeps t1 t3.
Proof.
  intros H12 H23 l n Hl. destruct (H12 l n Hl) as (n2 & Hl2 & Hk2).
  destruct (H23 l n2 Hl2) as (n3 & Hl3 & Hk3). exists n3. split; [done|]. congruence.
Qed.

Lemma grows_refl t : grows t t.
Proof. intros l. by left. Qed.

Lemma grows_trans t1 t2 t3 : grows t1 t2 → grows t2 t3 → grows t1 t3.
Proof.
  intros H12 H23 l. destruct (H12 l) as [E12|[E1 E2]], (H23 l) as [E23|[E2' E3]].
  - left. by rewrite E23.
  - right. by rewrite <-E12.
  - right. by rewrite E23.
  - by rewrite E2 in E2'.
Qed.

Lemma grows_keeps t t' : grows t t' → keeps t t'.
Proof. intros H l n Hl. destruct (H l) as [E|[E _]]; [|congruence]. exists n. by rewrite E. Qed.

Lemma grows_insert_dir t l : t !! l = None → grows t (<[l := Dir]> t).
Proof.
  intros Hl l'. destruct (decide (l = l')) as [<-|Hne].
  - right. by rewrite lookup_insert_eq.
  - left. by rewrite lookup_insert_ne.
Qed.

Lemma keeps_insert_file t l content :
  is_dir_at t l = false → keeps t (<[l := File content]> t).
Proof.
  intros Hl l' n Hl'. destruct (decide (l = l')) as [<-|Hne].
  - rewrite lookup_insert_eq. eexists; split; [done|].
    unfold is_dir_at in Hl. rewrite Hl' in Hl. by destruct n.
  - rewrite lookup_insert_ne by done. eauto.
Qed.

Lemma is_dir_at_true t l : is_dir_at t l = true ↔ t !! l = Some Dir.
Proof. unfold is_dir_at. destruct (t !! l) as [[]|]; naive_solver. Qed.

Lemma keeps_is_dir t t' l : keeps t t' → is_dir_at t l = true → is_dir_at t' l = true.
Proof.
  rewrite !is_dir_at_true. intros H Hl. destruct (H l Dir Hl) as (n' & -> & Hk).
  by destruct n'.
Qed.

Lemma keeps_file t t' l content :
  keeps t t' → t !! l = Some (File content) → ∃ content', t' !! l = Some (File content').
Proof. intros H Hl. destruct (H l _ Hl) as ([|c'] & -> & Hk); [done|eauto]. Qed.

Lemma grows_files t t' l content :
  grows t t' → t' !! l = Some (File content) ↔ t !! l = Some (File content).
Proof. intros H. destruct (H l) as [->|[-> ->]]; [done|]. split; intros; discriminate. Qed.

(** *** Path resolution *)

Lemma walk_app t cur cs1 cs2 :
  walk t cur (cs1 ++ cs2) = walk t cur cs1 ≫= λ d, walk t d cs2.
Proof.
  revert cur. induction cs1 as [|c cs1 IH]; intros cur; [done|].
  simpl. destruct (is_dir_at t cur); [apply IH|done].
Qed.

Lemma walk_keeps t t' cur cs d :
  keeps t t' → walk t cur cs = Some d → walk t' cur cs = Some d.
Proof.
  intros Hk. revert cur. induction cs as [|c cs IH]; intros cur; [done|].
  simpl. destruct (is_dir_at t cur) eqn:Hd; [|done].
  rewrite (keeps_is_dir _ _ _ Hk Hd). apply IH.
Qed.

Lemma step_plain cur n : plain n = true → step cur n = cur ++ [n].
Proof.
  unfold plain, step. rewrite !andb_true_iff, !negb_true_iff.
  by intros [[_ ->] ->].
Qed.

Lemma walk_snoc_plain t cur cs n d :
  plain n = true →
  walk t cur cs = Some d → is_dir_at t d = true →
  walk t cur (cs ++ [n]) = Some (d ++ [n]).
Proof.
  intros Hn Hw Hd. rewrite walk_app, Hw. simpl. by rewrite Hd, step_plain.
Qed.

Lemma walk_snoc_inv t cur cs n d' :
  plain n = true →
  walk t cur (cs ++ [n]) = Some d' →
  ∃ d, walk t cur cs = Some d ∧ is_dir_at t d = true ∧ d' = d ++ [n].
Proof.
  intros Hn. rewrite walk_app. destruct (walk t cur cs) as [d|]; [|done]. simpl.
  destruct (is_dir_at t d) eqn:Hd; [|done]. rewrite step_plain by done.
  intros [= <-]. eauto.
Qed.

(** *** [makedirs] *)

Lemma makedirs_from_grows cs cur t r t' :
  Os.makedirs_from cs cur t = (r, t') → grows t t'.
Proof.
  revert cur t. induction cs as [|c cs IH]; intros cur t; simpl.
  - destruct (is_dir_at t cur); intros [= _ <-]; apply grows_refl.
  - destruct (has_nul c); [intros [= _ <-]; apply grows_refl|].
    destruct (is_dir_at t cur); simpl; [|intros [= _ <-]; apply grows_refl].
    destruct (String.eqb c "."); [apply IH|].
    destruct (String.eqb c ".."); [apply IH|].
    destruct (t !! (cur ++ [c])) eqn:Hl; [apply IH|].
    intros Hrec%IH. eapply grows_trans; [|done]. by apply grows_insert_dir.
Qed.

(** A successful [makedirs] leaves a file system in which the path resolves
    to a directory. *)
Lemma makedirs_from_ok cs cur t t' :
  Os.makedirs_from cs cur t = (inr tt, t') →
  Forall (λ c, has_nul c = false) cs
  ∧ ∃ d, walk t' cur cs = Some d ∧ is_dir_at t' d = true.
Proof.
  revert cur t. induction cs as [|c cs IH]; intros cur t.
  - simpl. destruct (is_dir_at t cur) eqn:Hd; [|done]. intros [= <-]. eauto.
  - intros Hrun. pose proof (makedirs_from_grows _ _ _ _ _ Hrun) as Hg%grows_keeps.
    simpl in *. destruct (has_nul c) eqn:Hnul; [done|].
    destruct (is_dir_at t cur) eqn:Hd; simpl in *; [|done].
    rewrite (keeps_is_dir _ _ _ Hg Hd).
    revert Hrun. unfold step.
    destruct (String.eqb c "."); [intros [? ?]%IH; by split; [constructor|]|].
    destruct (String.eqb c ".."); [intros [? ?]%IH; by split; [constructor|]|].
    destruct (t !! (cur ++ [c])); intros [? ?]%IH; by split; [constructor|].
Qed.

(** When the path already resolves to a directory, [makedirs] changes
    nothing. *)
Lemma makedirs_from_present cs cur t d :
  Forall (λ c, has_nul c = false) cs →
  walk t cur cs = Some d → is_dir_at t d = true →
  Os.makedirs_from cs cur t = (inr tt, t).
Proof.
  intros Hnul. revert cur. induction Hnul as [|c cs Hc _ IH]; intros cur; simpl.
  - by intros [= ->] ->.
  - rewrite Hc. destruct (is_dir_at t cur) eqn:Hcur; [|done]. simpl. unfold step.
    destruct (String.eqb c "."); [apply IH|].
    destruct (String.eqb c ".."); [apply IH|].
    intros Hw Hd.
    assert (is_dir_at t (cur ++ [c]) = true) as Hnext.
    { destruct cs as [|c' cs]; simpl in Hw; [by injection Hw as ->|].
      by destruct (is_dir_at t (cur ++ [c])). }
    apply is_dir_at_true in Hnext. rewrite Hnext. by apply IH.
Qed.

End file_system.

(** ** Computations *)

Section computations.

Implicit Types st s : fs.

Lemma bind_inr {A B : Type} (m : M A) (f : A → M B) st b st' :
  (m ≫= f) st = (inr b, st') ↔ ∃ a st1, m st = (inr a, st1) ∧ f a st1 = (inr b, st').
Proof.
  unfold mbind, M_bind. destruct (m st) as [[e|a] st1]; split.
  - done.
  - by intros (? & ? & [=] & _).
  - eauto.
  - by intros (? & ? & [= -> ->] & ?).
Qed.

Lemma bind_run {A B : Type} (m : M A) (f : A → M B) st a st1 :
  m st = (inr a, st1) → (m ≫= f) st = f a st1.
Proof. unfold mbind, M_bind. by intros ->. Qed.

Lemma bind_fail {A B : Type} (m : M A) (f : A → M B) st e st1 :
  m st = (inl e, st1) → (m ≫= f) st = (inl e, st1).
Proof. unfold mbind, M_bind. by intros ->. Qed.

Lemma bind_assoc {A B C : Type} (m : M A) (f : A → M B) (g : B → M C) st :
  ((m ≫= f) ≫= g) st = (m ≫= λ a, f a ≫= g) st.
Proof. unfold mbind, M_bind. by destruct (m st) as [[e|a] st1]. Qed.

Lemma bind_ext {A B : Type} (m : M A) (f g : A → M B) st :
  (∀ a s, f a s = g a s) → (m ≫= f) st = (m ≫= g) st.
Proof. intros H. unfold mbind, M_bind. by destruct (m st) as [[e|a] st1]. Qed.

Lemma lift_bind {A B : Type} (r : result A) (f : A → M B) st :
  (lift r ≫= f) st = match r with inr a => f a st | inl e => (inl e, st) end.
Proof. by destruct r. Qed.

Lemma for_each_app {A : Type} (l1 l2 : list A) (body : A → M unit) st :
  for_each (l1 ++ l2) body st = (for_each l1 body ;; for_each l2 body) st.
Proof.
  revert st. induction l1 as [|x l1 IH]; intros st; simpl.
  - done.
  - rewrite bind_assoc. apply bind_ext. intros _ s. apply IH.
Qed.

Lemma run_app l1 l2 st : run (l1 ++ l2) st = (run l1 ;; run l2) st.
Proof.
  revert st. induction l1 as [|[o|e] l1 IH]; intros st; simpl; [done| |done].
  rewrite bind_assoc. apply bind_ext. intros _ s. apply IH.
Qed.

Lemma run_for_each {A : Type} (plan : A → list action) (body : A → M unit) (l : list A) st :
  (∀ x s, body x s = run (plan x) s) →
  for_each l body st = run (flat_map plan l) st.
Proof.
  intros Hbody. revert st. induction l as [|x l IH]; intros st; simpl; [done|].
  rewrite run_app. unfold mbind, M_bind. rewrite Hbody.
  destruct (run (plan x) st) as [[e|[]] st1]; [done|]. apply IH.
Qed.

Lemma run_pure {A : Type} (r : result A) (k : A → list action) (f : A → M unit) st :
  (∀ a s, f a s = run (k a) s) →
  (lift r ≫= f) st = run (plan_pure r k) st.
Proof. intros H. rewrite lift_bind. destruct r; [done|]. apply H. Qed.

Lemma run_generate file_path content st :
  (Os.makedirs (OsPath.dirname file_path) ;; Os.write_file file_path content) st =
  run (plan_generate file_path content) st.
Proof.
  simpl. apply bind_ext. intros _ s. unfold mbind, M_bind.
  by destruct (Os.write_file file_path content s) as [[e|[]] s'].
Qed.

Lemma run_for_each_do {A : Type} (g : A → op) (l : list A) st :
  for_each l (λ x, run_op (g x)) st = run (map (λ x, Do (g x)) l) st.
Proof.
  revert st. induction l as [|x l IH]; intros st; simpl; [done|].
  apply bind_ext. intros _ s. apply IH.
Qed.

Lemma create_project_structure_plan base_dir structure st :
  create_project_structure base_dir structure st = run (plan_structure base_dir structure) st.
Proof.
  unfold create_project_structure, plan_structure. apply run_for_each.
  intros [folder subfolders] s. simpl. apply bind_ext. intros _ s'.
  apply (run_for_each_do (λ subfolder, Makedirs (OsPath.join (OsPath.join2 base_dir folder) [subfolder]))).
Qed.

Lemma generate_component_plan component output_dir st :
  generate_component component output_dir st = run (plan_component output_dir component) st.
Proof.
  unfold generate_component, plan_component.
  apply run_pure. intros content s. apply run_pure. intros file_path s'.
  apply run_generate.
Qed.

Lemma generate_theme_plan theme output_dir st :
  generate_theme theme output_dir st = run (plan_theme output_dir theme) st.
Proof.
  unfold generate_theme, plan_theme. apply run_pure. intros content s. apply run_generate.
Qed.

Lemma bind_cong {A B : Type} (m m' : M A) (f g : A → M B) st :
  m st = m' st → (∀ a s, f a s = g a s) → (m ≫= f) st = (m' ≫= g) st.
Proof. intros Hm H. unfold mbind, M_bind. rewrite Hm. by destruct (m' st) as [[e|a] st1]. Qed.

Lemma bind_cong_run {A B : Type} (m m' : M A) (f g : A → M B) st :
  m st = m' st → (∀ a s, m' st = (inr a, s) → f a s = g a s) →
  (m ≫= f) st = (m' ≫= g) st.
Proof.
  intros Hm H. unfold mbind, M_bind. rewrite Hm.
  destruct (m' st) as [[e|a] st1]; [done|]. by apply H.
Qed.

Lemma main_create_plan config output_dir st :
  main_create config output_dir st = run (plan_main config output_dir) st.
Proof.
  unfold main_create, plan_main.
  rewrite run_app. apply bind_cong; [apply create_project_structure_plan|]. intros _ st1.
  rewrite run_app. apply bind_cong; [apply run_generate|]. intros _ st2.
  rewrite run_app. apply bind_cong; [apply run_generate|]. intros _ st3.
  simpl. apply bind_ext. intros _ s.
  apply run_pure. intros components s1.
  rewrite run_app. apply bind_cong.
  { apply run_for_each. intros. apply generate_component_plan. }
  intros _ s2. apply run_pure. intros theme s3. apply generate_theme_plan.
Qed.

End computations.

(** ** Operations on the file system state *)

Section operations.

Implicit Types st s : fs.

Lemma extends_refl st : extends st st.
Proof. split; [done|apply keeps_refl]. Qed.

Lemma extends_trans st1 st2 st3 : extends st1 st2 → extends st2 st3 → extends st1 st3.
Proof. intros [? ?] [? ?]. split; [congruence|by eapply keeps_trans]. Qed.

Lemma start_cwd st s p : cwd s = cwd st → start s p = start st p.
Proof. unfold start. by intros ->. Qed.

Lemma makedirs_inv name st r st' :
  Os.makedirs name st = (r, st') →
  cwd st' = cwd st ∧ grows (tree st) (tree st')
  ∧ (r = inr tt →
     is_empty name = false
     ∧ Forall (λ c, has_nul c = false) (OsPath.components name)
     ∧ ∃ d, walk (tree st') (start st name) (OsPath.components name) = Some d
            ∧ is_dir_at (tree st') d = true).
Proof.
  unfold Os.makedirs. destruct (is_empty name).
  { intros [= <- <-]. split; [done|]. split; [apply grows_refl|done]. }
  destruct (Os.makedirs_from _ _ _) as [r' t'] eqn:Hrun. intros [= <- <-]. simpl.
  split; [done|]. split; [by eapply makedirs_from_grows|].
  intros ->. split; [done|]. by eapply makedirs_from_ok.
Qed.

Lemma makedirs_present name st d :
  is_empty name = false →
  Forall (λ c, has_nul c = false) (OsPath.components name) →
  walk (tree st) (start st name) (OsPath.components name) = Some d →
  is_dir_at (tree st) d = true →
  Os.makedirs name st = (inr tt, st).
Proof.
  intros He Hnul Hw Hd. unfold Os.makedirs. rewrite He.
  rewrite (makedirs_from_present _ _ _ d) by done. by destruct st.
Qed.

(** What a successful [write_file] found and did. *)
Lemma write_file_inv p content st st' :
  Os.write_file p content st = (inr tt, st') →
  ∃ head name d,
    OsPath.rcut p = (head, name)
    ∧ has_nul p = false
    ∧ is_empty name || String.eqb name "." || String.eqb name ".." = false
    ∧ walk (tree st) (start st p) (OsPath.components head) = Some d
    ∧ is_dir_at (tree st) d = true
    ∧ is_dir_at (tree st) (d ++ [name]) = false
    ∧ st' = Fs (cwd st) (<[d ++ [name] := File content]> (tree st)).
Proof.
  unfold Os.write_file. destruct (has_nul p); [done|].
  destruct (OsPath.rcut p) as [head name].
  destruct (is_empty name || _ || _) eqn:Hname; [done|].
  destruct (walk _ _ _) as [d|] eqn:Hw; [|done].
  destruct (is_dir_at (tree st) d) eqn:Hd; [|done].
  destruct (is_dir_at (tree st) (d ++ [name])) eqn:Hn; [done|]. simpl.
  intros [= <-]. by exists head, name, d.
Qed.

Lemma write_file_fail p content st e st' :
  Os.write_file p content st = (inl e, st') → st' = st.
Proof.
  unfold Os.write_file. destruct (has_nul p); [by intros [= _ <-]|].
  destruct (OsPath.rcut p) as [head name].
  destruct (is_empty name || _ || _); [by intros [= _ <-]|].
  destruct (walk _ _ _) as [d|]; [|by intros [= _ <-]].
  by destruct (_ && _); intros [= _ <-].
Qed.

(** The resolved form of [write_file]: the name [n] in the directory
    [d]. *)
Lemma write_file_at p head n content st d :
  has_nul p = false → OsPath.rcut p = (head, n) → plain n = true →
  walk (tree st) (start st p) (OsPath.components head) = Some d →
  is_dir_at (tree st) d = true →
  Os.write_file p content st =
    if is_dir_at (tree st) (d ++ [n]) then (inl FilesystemError, st)
    else (inr tt, Fs (cwd st) (<[d ++ [n] := File content]> (tree st))).
Proof.
  intros Hnul Hcut Hn Hw Hd. unfold Os.write_file. rewrite Hnul, Hcut, Hw, Hd.
  unfold plain in Hn. rewrite !andb_true_iff, !negb_true_iff in Hn.
  destruct Hn as [[[[-> _] _] ->] ->]. simpl.
  by destruct (is_dir_at (tree st) (d ++ [n])).
Qed.

Lemma run_op_extends o st r st' : run_op o st = (r, st') → extends st st'.
Proof.
  destruct o as [name|p content]; simpl.
  - intros (Hcwd & Hg & _)%makedirs_inv. split; [done|by apply grows_keeps].
  - destruct r as [e|[]].
    + intros ->%write_file_fail. apply extends_refl.
    + intros (head & name & d & _ & _ & _ & _ & _ & Hn & ->)%write_file_inv.
      split; [done|]. by apply keeps_insert_file.
Qed.

Lemma run_extends l st r st' : run l st = (r, st') → extends st st'.
Proof.
  revert st. induction l as [|[o|e] l IH]; intros st; simpl.
  - intros [= _ <-]. apply extends_refl.
  - unfold mbind, M_bind. destruct (run_op o st) as [[e|[]] st1] eqn:Hop.
    + intros [= _ <-]. by eapply run_op_extends.
    + intros Hrest%IH. eapply extends_trans; [|done]. by eapply run_op_extends.
  - intros [= _ <-]. apply extends_refl.
Qed.

(** One operation of the second run. *)
Lemma run_op_replay o t t1 s final :
  run_op o t = (inr tt, t1) →
  extends t1 final → cwd s = cwd t → same_kinds s final → patched s final t →
  ∃ s1, run_op o s = (inr tt, s1)
        ∧ cwd s1 = cwd t1 ∧ same_kinds s1 final ∧ patched s1 final t1.
Proof.
  intros Hop [Hcf Hkf] Hcwd [Hsf Hfs] Hp.
  assert (keeps (tree t1) (tree s)) as Hk1 by (by eapply keeps_trans).
  pose proof (run_op_extends _ _ _ _ Hop) as [Hcwd1 Hk].
  destruct o as [name|p content]; simpl in *.
  - apply makedirs_inv in Hop as (_ & Hg & Hok).
    destruct (Hok eq_refl) as (He & Hnul & d & Hw & Hd).
    exists s. split; [|split; [congruence|split; [done|]]].
    + apply (makedirs_present _ _ d); [done..| |by eapply keeps_is_dir].
      rewrite (start_cwd t) by done. by eapply walk_keeps.
    + intros l. destruct (Hp l) as [?|(c & Hs & Ht)]; [by left|right].
      exists c. split; [done|]. by apply (grows_files _ _ _ _ Hg).
  - apply write_file_inv in Hop as (head & n & d & Hcut & Hnul & Hname & Hw & Hd & Hn & ->).
    simpl in *.
    assert (∃ c', tree s !! (d ++ [n]) = Some (File c')) as [c' Hsn].
    { apply (keeps_file _ _ _ content Hk1). apply lookup_insert_eq. }
    assert (is_dir_at (tree s) (d ++ [n]) = false) as Hsn'.
    { unfold is_dir_at. by rewrite Hsn. }
    exists (Fs (cwd s) (<[d ++ [n] := File content]> (tree s))).
    split; [|split; [done|split; [split|]]]; simpl.
    + unfold Os.write_file. rewrite Hnul, Hcut, Hname, (start_cwd t) by done.
      rewrite (walk_keeps _ _ _ _ _ (keeps_trans _ _ _ Hk Hk1) Hw).
      rewrite (keeps_is_dir _ _ d (keeps_trans _ _ _ Hk Hk1) Hd). by rewrite Hsn'.
    + intros l n' Hl. destruct (decide (d ++ [n] = l)) as [<-|Hne].
      * rewrite lookup_insert_eq in Hl. injection Hl as <-.
        destruct (Hsf _ _ Hsn) as (n' & Hfn & Hkind). eauto.
      * rewrite lookup_insert_ne in Hl by done. by apply Hsf.
    + intros l n' Hl. destruct (Hfs l n' Hl) as (n2 & Hl2 & Hkind).
      destruct (decide (d ++ [n] = l)) as [<-|Hne].
      * rewrite lookup_insert_eq. eexists; split; [done|].
        rewrite Hsn in Hl2. injection Hl2 as <-. done.
      * rewrite lookup_insert_ne by done. eauto.
    + intros l. simpl. destruct (decide (d ++ [n] = l)) as [<-|Hne].
      * right. exists content. by rewrite !lookup_insert_eq.
      * rewrite !lookup_insert_ne by done. apply Hp.
Qed.

(** The whole second run: it succeeds, and ends where it started. *)
Lemma run_replay l t t' s final :
  run l t = (inr tt, t') →
  extends t' final → cwd s = cwd t → same_kinds s final → patched s final t →
  ∃ s', run l s = (inr tt, s')
        ∧ cwd s' = cwd t' ∧ same_kinds s' final ∧ patched s' final t'.
Proof.
  revert t s. induction l as [|[o|e] l IH]; intros t s; simpl.
  - intros [= <-]. eauto.
  - intros (a & t1 & Hop & Hrest)%bind_inr Hext Hcwd Hsk Hp. destruct a.
    pose proof (run_extends _ _ _ _ Hrest) as Hext1.
    destruct (run_op_replay o t t1 s final Hop) as (s1 & Hop' & Hcwd1 & Hsk1 & Hp1);
      [by eapply extends_trans|done..|].
    destruct (IH t1 s1 Hrest Hext Hcwd1 Hsk1 Hp1) as (s' & Hrun & ?).
    exists s'. split; [|done]. by rewrite (bind_run _ _ _ _ _ Hop').
  - done.
Qed.

Lemma run_twice l st st' :
  run l st = (inr tt, st') → run l st' = (inr tt, st').
Proof.
  intros Hrun. pose proof (run_extends _ _ _ _ Hrun) as [Hcwd _].
  destruct (run_replay l st st' st' st' Hrun) as (s' & Hrun' & Hcwd' & _ & Hp).
  - apply extends_refl.
  - done.
  - split; apply keeps_refl.
  - intros l'. by left.
  - assert (tree s' = tree st') as Htree.
    { apply map_eq. intros l'. destruct (Hp l') as [?|(content & -> & ->)]; done. }
    rewrite Hrun'. f_equal. destruct s', st'. simpl in *. by subst.
Qed.

End operations.

(** ** Generators, resolved *)

Section generators.

Implicit Types st s : fs.
Implicit Types d : loc.
Implicit Types parts : list string.

Lemma has_nul_pieces p : has_nul p = existsb has_nul (OsPath.pieces p).
Proof.
  induction p as [|c p IH]; [done|]. unfold has_nul in *. simpl. rewrite IH.
  destruct (is_slash c) eqn:Hc.
  - apply Ascii.eqb_eq in Hc as ->. done.
  - pose proof (pieces_not_nil p). destruct (OsPath.pieces p); [done|].
    simpl. by rewrite orb_assoc.
Qed.

Lemma has_nul_components p :
  has_nul p = false ↔ Forall (λ c, has_nul c = false) (OsPath.components p).
Proof.
  rewrite has_nul_pieces. unfold OsPath.components.
  induction (OsPath.pieces p) as [|x xs IH]; simpl.
  - split; [constructor|done].
  - rewrite orb_false_iff, IH. destruct (decide (x ≠ "")) as [Hx|Hx].
    + rewrite filter_cons_True by done. by rewrite Forall_cons.
    + rewrite filter_cons_False by done. apply dec_stable in Hx as ->.
      split; [by intros [_ ?]|by intros ?].
Qed.

Lemma plain_parts_no_nul parts :
  Forall (λ n, plain n = true) parts → Forall (λ c, has_nul c = false) parts.
Proof. intros H. eapply Forall_impl; [done|]. intros n. apply plain_no_nul. Qed.

(** The path of a file [n] below the directories [parts] of the output
    directory. *)
Lemma file_path_facts out parts n :
  Forall (λ n, plain n = true) parts → plain n = true →
  let file_path := OsPath.join out (parts ++ [n]) in
  has_nul file_path = has_nul out
  ∧ OsPath.isabs file_path = OsPath.isabs out
  ∧ (∃ head, OsPath.rcut file_path = (head, n)
       ∧ OsPath.components head = OsPath.components out ++ parts)
  ∧ (parts ≠ [] →
     is_empty (OsPath.dirname file_path) = false
     ∧ OsPath.isabs (OsPath.dirname file_path) = OsPath.isabs out
     ∧ OsPath.components (OsPath.dirname file_path) = OsPath.components out ++ parts).
Proof.
  intros Hparts Hn. simpl. rewrite join_snoc.
  destruct (join_plain out parts Hparts) as (Habs & Hnul & Hcs & He).
  destruct (join2_plain (OsPath.join out parts) n Hn)
    as (_ & -> & -> & _ & head & Hcut & Hhead & Hhe & Hhabs).
  split; [done|]. split; [done|]. split.
  { exists head. split; [done|]. by rewrite Hhead. }
  intros Hne. unfold OsPath.dirname, OsPath.split. rewrite Hcut. simpl.
  assert (is_empty head = false) as Hhead_ne.
  { rewrite Hhe, He. rewrite bool_decide_eq_false_2 by done. apply andb_false_r. }
  destruct (split_head head Hhead_ne) as (-> & -> & ->). by rewrite Hhabs, Habs, Hhead, Hcs.
Qed.

Lemma start_isabs st p q : OsPath.isabs p = OsPath.isabs q → start st p = start st q.
Proof. unfold start. by intros ->. Qed.

Lemma leads_extends st st' out parts d :
  extends st st' → leads st out parts d → leads st' out parts d.
Proof.
  intros [Hcwd Hk] (Hnul & Hw & Hd). split; [done|]. split.
  - rewrite (start_cwd st) by done. by eapply walk_keeps.
  - by eapply keeps_is_dir.
Qed.

Lemma leads_fun st out parts d d' :
  leads st out parts d → leads st out parts d' → d = d'.
Proof. intros (_ & Hw & _) (_ & Hw' & _). congruence. Qed.

Lemma leads_snoc_inv st out parts n d' :
  plain n = true → leads st out (parts ++ [n]) d' →
  ∃ d, leads st out parts d ∧ d' = d ++ [n].
Proof.
  intros Hn (Hnul & Hw & Hd). rewrite app_assoc in Hw.
  apply walk_snoc_inv in Hw as (d & Hw & Hd0 & ->); [|done].
  exists d. by repeat split.
Qed.

Lemma leads_snoc st out parts n d :
  plain n = true → leads st out parts d → is_dir_at (tree st) (d ++ [n]) = true →
  leads st out (parts ++ [n]) (d ++ [n]).
Proof.
  intros Hn (Hnul & Hw & Hd) Hdn. split; [done|]. split; [|done].
  rewrite app_assoc. by apply walk_snoc_plain.
Qed.

Lemma makedirs_join_inv out parts st st' :
  Forall (λ n, plain n = true) parts → parts ≠ [] →
  Os.makedirs (OsPath.join out parts) st = (inr tt, st') →
  cwd st' = cwd st ∧ grows (tree st) (tree st') ∧ ∃ d, leads st' out parts d.
Proof.
  intros Hparts Hne (Hcwd & Hg & Hok)%makedirs_inv.
  destruct (Hok eq_refl) as (_ & Hnul & d & Hw & Hd).
  destruct (join_plain out parts Hparts) as (Habs & _ & Hcs & _).
  split; [done|]. split; [done|]. exists d. rewrite Hcs in *. split; [|split; [|done]].
  - apply has_nul_components. by apply Forall_app in Hnul as [? _].
  - rewrite (start_cwd st) by done. by rewrite <-(start_isabs st _ _ Habs).
Qed.

Lemma write_at out parts n content st d :
  Forall (λ n, plain n = true) parts → plain n = true →
  leads st out parts d →
  Os.write_file (OsPath.join out (parts ++ [n])) content st =
    if is_dir_at (tree st) (d ++ [n]) then (inl FilesystemError, st)
    else (inr tt, Fs (cwd st) (<[d ++ [n] := File content]> (tree st))).
Proof.
  intros Hparts Hn (Hnul & Hw & Hd).
  destruct (file_path_facts out parts n Hparts Hn) as (Hfnul & Habs & (head & Hcut & Hhead) & _).
  apply (write_file_at _ head); try done; [congruence|].
  by rewrite (start_isabs st _ _ Habs), Hhead.
Qed.

Lemma makedirs_dirname_at out parts n st d :
  Forall (λ n, plain n = true) parts → parts ≠ [] → plain n = true →
  leads st out parts d →
  Os.makedirs (OsPath.dirname (OsPath.join out (parts ++ [n]))) st = (inr tt, st).
Proof.
  intros Hparts Hne Hn (Hnul & Hw & Hd).
  destruct (file_path_facts out parts n Hparts Hn) as (_ & _ & _ & Hdir).
  destruct (Hdir Hne) as (He & Habs & Hcs).
  apply (makedirs_present _ _ d); [done| | |done].
  - rewrite Hcs. apply Forall_app. split; [by apply has_nul_components|].
    by apply plain_parts_no_nul.
  - by rewrite (start_isabs st _ _ Habs), Hcs.
Qed.

(** A generator whose directories are already there only writes its
    file. *)
Lemma generate_at out parts n content st d :
  Forall (λ n, plain n = true) parts → parts ≠ [] → plain n = true →
  leads st out parts d →
  generate (OsPath.join out (parts ++ [n])) content st =
    if is_dir_at (tree st) (d ++ [n]) then (inl FilesystemError, st)
    else (inr tt, Fs (cwd st) (<[d ++ [n] := File content]> (tree st))).
Proof.
  intros Hparts Hne Hn Hl. unfold generate.
  rewrite (bind_run _ _ _ _ _ (makedirs_dirname_at out parts n st d Hparts Hne Hn Hl)).
  by apply write_at.
Qed.

End generators.

(** ** The generated texts *)

Section texts.

Lemma component_content_valid component id title :
  component_id component = Some id → component_title component = Some title →
  component_content component = inr (component_text (capitalize id) (Py.str title)).
Proof.
  destruct component as [| | | | |d]; try done. unfold component_id, component_title.
  unfold component_content. simpl.
  destruct (Py.dict_lookup "id" d) as [[| | |s| |]|]; try done. intros [= ->].
  simpl. destruct (Py.dict_lookup "options" d) as [[| | | | |o]|]; try done; simpl.
  - intros [= <-]. by destruct (Py.dict_lookup "title" o).
  - by intros [= <-].
Qed.

Lemma theme_content_dict theme :
  theme_content (VDict theme) = inr (theme_text_of theme).
Proof.
  unfold theme_content, theme_text_of, theme_field. simpl.
  by destruct (Py.dict_lookup "mode" theme), (Py.dict_lookup "primaryColor" theme),
    (Py.dict_lookup "secondaryColor" theme).
Qed.

End texts.

(** ** The pipeline, resolved *)

Section pipeline.

Implicit Types st s : fs.
Implicit Types d l : loc.
Implicit Types ws : list (loc * string).

Lemma string_length_app (a b : string) :
  String.length (a +:+ b) = String.length a + String.length b.
Proof. induction a as [|c a IH]; [done|]. rewrite sapp_cons. simpl. by rewrite IH. Qed.

Lemma sapp_inj_r (a b s : string) : a +:+ s = b +:+ s → a = b.
Proof.
  revert b. induction a as [|c a IH]; intros [|c' b] H; [done| | |].
  - apply (f_equal String.length) in H. rewrite !string_length_app in H. simpl in H. lia.
  - apply (f_equal String.length) in H. rewrite !string_length_app in H. simpl in H. lia.
  - rewrite !sapp_cons in H. injection H as -> H. f_equal. by apply IH.
Qed.

Lemma plain_js id : valid_id id = true → plain (id +:+ ".js") = true.
Proof.
  unfold valid_id, plain, has_slash, has_nul.
  rewrite !andb_true_iff, !negb_true_iff, !existsb_char_app, is_empty_app.
  intros [-> ->]. rewrite andb_false_r. repeat split; try done.
  - apply String.eqb_neq. intros H%(f_equal String.length).
    rewrite string_length_app in H. simpl in H. lia.
  - apply String.eqb_neq. intros H%(f_equal String.length).
    rewrite string_length_app in H. simpl in H. lia.
Qed.

Lemma component_loc_inj d id id' : component_loc d id = component_loc d id' → id = id'.
Proof.
  unfold component_loc. intros H%app_inv_head. injection H as H. by apply sapp_inj_r in H.
Qed.

(** *** [create_project_structure] *)

Lemma leads_plain_inv st out parts d' :
  Forall (λ n, plain n = true) parts → leads st out parts d' →
  ∃ d, leads st out [] d ∧ d' = d ++ parts.
Proof.
  revert d'. induction parts as [|n parts IH] using rev_ind; intros d' Hp Hl.
  - exists d'. by rewrite app_nil_r.
  - apply Forall_app in Hp as [Hp Hn%Forall_inv].
    apply leads_snoc_inv in Hl as (d1 & Hl & ->); [|done].
    destruct (IH d1 Hp Hl) as (d & Hd & ->). exists d. by rewrite <-app_assoc.
Qed.

Lemma leads_dir st out parts d : leads st out parts d → is_dir_at (tree st) d = true.
Proof. by intros (_ & _ & ?). Qed.

Lemma run_makedirs_all out (dirs : list (list string)) st st' :
  Forall (λ parts, Forall (λ n, plain n = true) parts ∧ parts ≠ []) dirs →
  run (map (λ parts, Do (Makedirs (OsPath.join out parts))) dirs) st = (inr tt, st') →
  cwd st' = cwd st ∧ grows (tree st) (tree st')
  ∧ Forall (λ parts, ∃ d', leads st' out parts d') dirs.
Proof.
  intros Hdirs. revert st. induction Hdirs as [|parts dirs [Hp Hne] _ IH]; intros st; simpl.
  - intros [= <-]. split; [done|]. split; [apply grows_refl|constructor].
  - intros ([] & st1 & Hmk & Hrest)%bind_inr.
    apply makedirs_join_inv in Hmk as (Hcwd1 & Hg1 & d' & Hl); [|done..].
    destruct (IH _ Hrest) as (Hcwd & Hg & Hall).
    split; [congruence|]. split; [by eapply grows_trans|].
    constructor; [|done]. exists d'. eapply leads_extends; [|done].
    split; [done|by apply grows_keeps].
Qed.

Lemma create_project_structure_inv out st st' :
  create_project_structure out PROJECT_STRUCTURE st = (inr tt, st') →
  cwd st' = cwd st ∧ grows (tree st) (tree st') ∧ ∃ d, scaffolded st' out d.
Proof.
  rewrite create_project_structure_plan.
  change (plan_structure out PROJECT_STRUCTURE)
    with (map (λ parts, Do (Makedirs (OsPath.join out parts))) STRUCTURE_DIRS).
  intros (Hcwd & Hg & Hall)%run_makedirs_all.
  2:{ repeat constructor; done. }
  split; [done|]. split; [done|].
  assert (∃ d, leads st' out [] d) as [d Hd].
  { apply Forall_inv in Hall as [d' Hl]. apply leads_plain_inv in Hl as (d & Hd & _); [eauto|].
    by repeat constructor. }
  exists d. split; [done|].
  assert (Forall (λ parts, Forall (λ n, plain n = true) parts) STRUCTURE_DIRS) as Hplain
    by (repeat constructor; done).
  revert Hall Hplain. generalize STRUCTURE_DIRS.
  induction 1 as [|parts dirs [d' Hl] _ IH]; intros Hplain; [constructor|].
  apply Forall_cons in Hplain as [Hp Hplain]. constructor; [|by apply IH].
  pose proof (leads_dir _ _ _ _ Hl) as Hdir.
  apply leads_plain_inv in Hl as (d0 & Hd0 & ->); [|done].
  by rewrite (leads_fun _ _ _ _ _ Hd Hd0).
Qed.

Lemma scaffolded_extends st st' out d : extends st st' → scaffolded st out d → scaffolded st' out d.
Proof.
  intros Hext [Hl Hdirs]. split; [by eapply leads_extends|].
  eapply Forall_impl; [done|]. intros parts. apply keeps_is_dir, Hext.
Qed.

Lemma scaffolded_put st out d w :
  scaffolded st out d → is_dir_at (tree st) w.1 = false →
  scaffolded (Fs (cwd st) (<[w.1 := File w.2]> (tree st))) out d.
Proof.
  intros Hsc Hw. eapply scaffolded_extends; [|done]. split; [done|]. by apply keeps_insert_file.
Qed.

Lemma scaffolded_src st out d :
  scaffolded st out d → leads st out ["src"] (d ++ ["src"]).
Proof.
  intros [Hl Hdirs]. rewrite Forall_forall in Hdirs.
  apply (leads_snoc _ _ [] "src" d); [done..|].
  apply Hdirs. by apply (bool_decide_unpack _).
Qed.

Lemma scaffolded_src_sub st out d n :
  ["src"; n] ∈ STRUCTURE_DIRS → plain n = true → scaffolded st out d →
  leads st out ["src"; n] (d ++ ["src"; n]).
Proof.
  intros Hin Hn Hsc. pose proof (scaffolded_src _ _ _ Hsc) as Hsrc.
  destruct Hsc as [Hl Hdirs]. rewrite Forall_forall in Hdirs.
  replace (d ++ ["src"; n]) with ((d ++ ["src"]) ++ [n]) by by rewrite <-app_assoc.
  apply (leads_snoc _ _ ["src"] n); [done..|].
  rewrite <-app_assoc. by apply Hdirs.
Qed.

(** *** Each generator writes one file *)

Lemma generate_index_js_put out d st :
  scaffolded st out d → generate_index_js out st = put (index_js_loc d, INDEX_JS) st.
Proof.
  intros Hsc%scaffolded_src. unfold index_js_loc.
  replace (d ++ ["src"; "index.js"]) with ((d ++ ["src"]) ++ ["index.js"])
    by by rewrite <-app_assoc.
  apply (generate_at out ["src"] "index.js"); first [done|by repeat constructor].
Qed.

Lemma generate_app_js_put out d st :
  scaffolded st out d → generate_app_js out st = put (app_js_loc d, APP_JS) st.
Proof.
  intros Hsc%scaffolded_src. unfold app_js_loc.
  replace (d ++ ["src"; "App.js"]) with ((d ++ ["src"]) ++ ["App.js"])
    by by rewrite <-app_assoc.
  apply (generate_at out ["src"] "App.js"); first [done|by repeat constructor].
Qed.

Lemma generate_package_json_put out d st :
  scaffolded st out d → generate_package_json out st = put (package_json_loc d, PACKAGE_JSON) st.
Proof. intros [Hl _]. by apply (write_at out [] "package.json"). Qed.

Lemma generate_theme_put out d theme st :
  scaffolded st out d →
  generate_theme (VDict theme) out st = put (theme_write d theme) st.
Proof.
  intros Hsc. unfold generate_theme. rewrite lift_bind, theme_content_dict.
  pose proof (scaffolded_src_sub st out d "themes") as Hl. unfold theme_write, theme_loc.
  replace (d ++ ["src"; "themes"; "theme.js"]) with ((d ++ ["src"; "themes"]) ++ ["theme.js"])
    by by rewrite <-app_assoc.
  apply (generate_at out ["src"; "themes"] "theme.js"); try first [done|by repeat constructor].
  apply Hl; [by apply (bool_decide_unpack _)|done..].
Qed.

Lemma valid_component_inv component :
  valid_component component = true →
  ∃ id title, component_id component = Some id ∧ component_title component = Some title
              ∧ valid_id id = true ∧ Py.getitem component "id" = inr (VStr id).
Proof.
  unfold valid_component. destruct (component_id component) as [id|] eqn:Hid; [|done].
  destruct (component_title component) as [title|]; [|done]. intros Hv.
  exists id, title. repeat split; try done.
  destruct component as [| | | | |entries]; try done. simpl in *.
  by destruct (Py.dict_lookup "id" entries) as [[| | |s| |]|]; simplify_eq.
Qed.

Lemma generate_component_put out d component st :
  valid_component component = true → scaffolded st out d →
  generate_component component out st = put (component_write d component) st.
Proof.
  intros (id & title & Hid & Htitle & Hv & Hget)%valid_component_inv Hsc.
  unfold generate_component, component_path.
  rewrite lift_bind, (component_content_valid _ id title), Hget by done. simpl.
  unfold component_write, component_text_of, component_loc. rewrite Hid, Htitle. simpl.
  replace (d ++ ["src"; "components"; id +:+ ".js"])
    with ((d ++ ["src"; "components"]) ++ [id +:+ ".js"]) by by rewrite <-app_assoc.
  apply (generate_at out ["src"; "components"] (id +:+ ".js"));
    try first [done|by repeat constructor].
  - by apply plain_js.
  - apply scaffolded_src_sub; [by apply (bool_decide_unpack _)|done..].
Qed.

(** *** A run of writes *)

Lemma is_dir_at_insert_file (t : gmap loc node) l l' content :
  is_dir_at t l = false → is_dir_at (<[l := File content]> t) l' = is_dir_at t l'.
Proof.
  intros Hl. unfold is_dir_at in *. destruct (decide (l = l')) as [<-|Hne].
  - rewrite lookup_insert_eq. by destruct (t !! l) as [[]|].
  - by rewrite lookup_insert_ne.
Qed.

Lemma puts_run ws st st' :
  for_each ws put st = (inr tt, st') ↔
  Forall (λ w, is_dir_at (tree st) w.1 = false) ws
  ∧ st' = Fs (cwd st) (write_all ws (tree st)).
Proof.
  revert st. induction ws as [|w ws IH]; intros st; simpl.
  - destruct st. split; [intros [= <-]; by split|by intros [_ ->]].
  - rewrite bind_inr. unfold put at 1. destruct (is_dir_at (tree st) w.1) eqn:Hw.
    + split; [by intros (? & ? & [=] & _)|]. intros [H _]. apply Forall_inv in H. congruence.
    + split.
      * intros ([] & st1 & [= <-] & Hrest). apply IH in Hrest as [Hall ->]. simpl in *.
        split; [|done]. constructor; [done|].
        eapply Forall_impl; [done|]. intros w'. simpl. by rewrite is_dir_at_insert_file.
      * intros [Hall ->]. apply Forall_cons in Hall as [_ Hall].
        eexists tt, _. split; [done|]. apply IH. simpl. split; [|done].
        eapply Forall_impl; [done|]. intros w'. simpl. by rewrite is_dir_at_insert_file.
Qed.

Lemma keeps_write_all ws (t : gmap loc node) :
  Forall (λ w, is_dir_at t w.1 = false) ws → keeps t (write_all ws t).
Proof.
  revert t. induction ws as [|w ws IH]; intros t Hall; [apply keeps_refl|]. simpl.
  apply Forall_cons in Hall as [Hw Hall].
  eapply keeps_trans; [by apply (keeps_insert_file t w.1 w.2)|]. apply IH.
  eapply Forall_impl; [done|]. intros w'. simpl. by rewrite is_dir_at_insert_file.
Qed.

Lemma put_scaffolded w st st' out d :
  put w st = (inr tt, st') → scaffolded st out d → scaffolded st' out d.
Proof.
  unfold put. destruct (is_dir_at (tree st) w.1) eqn:Hw; [done|].
  intros [= <-] Hsc. by apply scaffolded_put.
Qed.

Lemma for_each_puts {A : Type} (body : A → M unit) (w : A → loc * string) (l : list A)
    out d st :
  scaffolded st out d →
  Forall (λ x, ∀ s, scaffolded s out d → body x s = put (w x) s) l →
  for_each l body st = for_each (map w l) put st.
Proof.
  intros Hsc Hbody. revert st Hsc. induction Hbody as [|x l Hx _ IH]; intros st Hsc; [done|].
  simpl. unfold mbind, M_bind. rewrite Hx by done.
  destruct (put (w x) st) as [[e|[]] s1] eqn:Hput; [done|].
  apply IH. by eapply put_scaffolded.
Qed.

Lemma bind_put {B : Type} (m : M unit) (w : loc * string) (f g : unit → M B) out d st :
  scaffolded st out d →
  m st = put w st →
  (∀ s, scaffolded s out d → f tt s = g tt s) →
  (m ≫= f) st = (put w ≫= g) st.
Proof.
  intros Hsc Hm Hfg. unfold mbind, M_bind. rewrite Hm.
  destruct (put w st) as [[e|[]] s1] eqn:Hput; [done|].
  apply Hfg. by eapply put_scaffolded.
Qed.

Lemma valid_config_inv config :
  valid_config config = true →
  ∃ theme,
    (c ← Py.get config "components" (VList []); Py.iter c) = inr (config_components config)
    ∧ Py.get config "theme" (VDict []) = inr (VDict theme)
    ∧ config_theme config = theme
    ∧ Forall (λ c, valid_component c = true) (config_components config).
Proof.
  unfold valid_config, config_components, config_theme.
  destruct (Py.get config "components" (VList [])) as [|[| | | |components|]]; try done.
  destruct (Py.get config "theme" (VDict [])) as [|[| | | | |theme]]; try done.
  intros Hall. exists theme. repeat split; try done.
  apply Forall_forall. intros c Hc%list_elem_of_In. rewrite forallb_forall in Hall. auto.
Qed.

Lemma generators_puts config out d st :
  valid_config config = true → scaffolded st out d →
  generators config out st = for_each (writes d config) put st.
Proof.
  intros (theme & Hcs & Hth & Htheme & Hvalid)%valid_config_inv Hsc.
  unfold generators, writes, fixed_writes. simpl.
  eapply bind_put; [done|by apply generate_index_js_put|]. intros s1 Hs1.
  eapply bind_put; [done|by apply generate_app_js_put|]. intros s2 Hs2.
  eapply bind_put; [done|by apply generate_package_json_put|]. intros s3 Hs3.
  rewrite lift_bind, Hcs, for_each_app.
  apply bind_cong_run.
  { apply (for_each_puts _ (component_write d) _ out d); [done|].
    eapply Forall_impl; [done|]. intros c Hc s Hs. by apply generate_component_put. }
  intros [] s4 Hloop.
  rewrite lift_bind, Hth, Htheme. simpl.
  assert (scaffolded s4 out d) as Hs4.
  { apply puts_run in Hloop as [Hall ->]. eapply scaffolded_extends; [|done].
    split; [done|]. by apply keeps_write_all. }
  rewrite (generate_theme_put out d) by done. unfold mbind, M_bind.
  by destruct (put (theme_write d theme) s4) as [[e|[]] s5].
Qed.

Lemma files_insert_file (c c2 : loc) (t : gmap loc node) l (content : string) :
  files (Fs c (<[l := File content]> t)) = <[l := content]> (files (Fs c2 t)).
Proof. unfold files. simpl. by apply omap_insert_Some. Qed.

Lemma files_write_all (c c2 : loc) ws (t : gmap loc node) :
  files (Fs c (write_all ws t)) = put_all ws (files (Fs c2 t)).
Proof.
  revert t. induction ws as [|w ws IH]; intros t; [done|]. simpl.
  by rewrite IH, (files_insert_file c2 c2).
Qed.

Lemma files_grows (c c' : loc) (t t' : gmap loc node) :
  grows t t' → files (Fs c' t') = files (Fs c t).
Proof.
  intros Hg. apply map_eq. intros l. unfold files. simpl. rewrite !lookup_omap.
  by destruct (Hg l) as [->|[-> ->]].
Qed.

Lemma files_same (st st' : fs) : grows (tree st) (tree st') → files st' = files st.
Proof. destruct st, st'. apply files_grows. Qed.

(** What a successful run did, for a well-formed configuration: it made
    the directories that were missing, then wrote its files, none of them
    where a directory is. *)
Lemma main_create_inv config out st st' :
  valid_config config = true →
  main_create config out st = (inr tt, st') →
  ∃ d st1,
    cwd st1 = cwd st ∧ grows (tree st) (tree st1) ∧ scaffolded st1 out d
    ∧ Forall (λ w, is_dir_at (tree st1) w.1 = false) (writes d config)
    ∧ st' = Fs (cwd st) (write_all (writes d config) (tree st1)).
Proof.
  intros Hv. change (main_create config out)
    with (create_project_structure out PROJECT_STRUCTURE ;; generators config out).
  intros ([] & st1 & Hcps & Hgen)%bind_inr.
  apply create_project_structure_inv in Hcps as (Hcwd & Hg & d & Hsc).
  rewrite (generators_puts config out d) in Hgen by done.
  apply puts_run in Hgen as [Hall ->]. exists d, st1. by rewrite Hcwd.
Qed.


End pipeline.

(** ** What is on disk afterwards *)

Section observations.

Implicit Types st s : fs.
Implicit Types d l : loc.
Implicit Types ws : list (loc * string).

(** Any generator that succeeds has written exactly one regular file, the
    one its path names. *)
Lemma generate_writes_one p content st st' :
  generate p content st = (inr tt, st') →
  cwd st' = cwd st
  ∧ read_file st' p = Some content
  ∧ ∃ l, files st' = <[l := content]> (files st).
Proof.
  intros ([] & st1 & Hmk & Hwr)%bind_inr.
  apply makedirs_inv in Hmk as (Hcwd & Hg & _).
  apply write_file_inv in Hwr as (head & name & d & Hcut & Hnul & Hname & Hw & Hd & Hn & ->).
  split; [done|]. split.
  - unfold read_file. rewrite Hcut. simpl.
    rewrite (start_cwd st1) by done.
    rewrite (walk_keeps _ _ _ _ _ (keeps_insert_file _ _ content Hn) Hw).
    rewrite lookup_insert_eq, is_dir_at_insert_file, Hd by done.
    apply orb_false_iff in Hname as [[-> _]%orb_false_iff _]. done.
  - exists (d ++ [name]). unfold files. simpl.
    rewrite (omap_insert_Some _ _ _ _ content) by done. f_equal.
    apply (files_grows (cwd st) (cwd st1) _ _ Hg).
Qed.

(** A generator fails only in the file system. *)
Lemma makedirs_from_fails (cs : list string) (cur : loc) (t : gmap loc node) e t' :
  Os.makedirs_from cs cur t = (inl e, t') → e = FilesystemError ∨ e = ValueError.
Proof.
  revert cur t. induction cs as [|c cs IH]; intros cur t; simpl.
  - destruct (is_dir_at t cur); [done|]. intros [= <- _]. by left.
  - destruct (has_nul c); [intros [= <- _]; by right|].
    destruct (is_dir_at t cur); simpl; [|intros [= <- _]; by left].
    destruct (String.eqb c "."); [apply IH|].
    destruct (String.eqb c ".."); [apply IH|].
    destruct (t !! (cur ++ [c])); apply IH.
Qed.

Lemma run_op_fails o st e st' :
  run_op o st = (inl e, st') → e = FilesystemError ∨ e = ValueError.
Proof.
  destruct o as [name|p content]; simpl.
  - unfold Os.makedirs. destruct (is_empty name); [intros [= <- _]; by left|].
    destruct (Os.makedirs_from _ _ _) as [[e'|[]] t'] eqn:Hrun; [|done].
    intros [= <- _]. by eapply makedirs_from_fails.
  - unfold Os.write_file. destruct (has_nul p); [intros [= <- _]; by right|].
    destruct (OsPath.rcut p) as [head name].
    destruct (is_empty name || _ || _); [intros [= <- _]; by left|].
    destruct (walk _ _ _) as [d|]; [|intros [= <- _]; by left].
    destruct (_ && _); [done|]. intros [= <- _]. by left.
Qed.


Lemma read_file_at out parts n content st d :
  Forall (λ n, plain n = true) parts → plain n = true →
  leads st out parts d → tree st !! (d ++ [n]) = Some (File content) →
  read_file st (OsPath.join out (parts ++ [n])) = Some content.
Proof.
  intros Hparts Hn (Hnul & Hw & Hd) Hfile.
  destruct (file_path_facts out parts n Hparts Hn) as (_ & Habs & (head & Hcut & Hhead) & _).
  unfold read_file. rewrite Hcut, (start_isabs st _ _ Habs), Hhead, Hw, Hfile, Hd.
  by rewrite (plain_not_empty n).
Qed.

Lemma isdir_at out parts st d :
  Forall (λ n, plain n = true) parts → parts ≠ [] →
  leads st out parts d → isdir st (OsPath.join out parts) = true.
Proof.
  intros Hparts Hne (Hnul & Hw & Hd).
  destruct (join_plain out parts Hparts) as (Habs & _ & Hcs & He).
  unfold isdir, resolve. rewrite He, bool_decide_eq_false_2, andb_false_r by done.
  by rewrite (start_isabs st _ _ Habs), Hcs, Hw.
Qed.

(** *** The result of a list of writes *)

Lemma write_all_lookup ws (t : gmap loc node) l :
  write_all ws t !! l =
    match final_content ws l with
    | Some content => Some (File content)
    | None => t !! l
    end.
Proof.
  revert t. induction ws as [|w ws IH]; intros t; [done|]. simpl. rewrite IH.
  destruct (final_content ws l); [done|].
  destruct (decide (w.1 = l)) as [<-|Hne].
  - by rewrite lookup_insert_eq.
  - by rewrite lookup_insert_ne.
Qed.

Lemma put_all_lookup ws (m : gmap loc string) l :
  put_all ws m !! l =
    match final_content ws l with
    | Some content => Some content
    | None => m !! l
    end.
Proof.
  revert m. induction ws as [|w ws IH]; intros m; [done|]. simpl. rewrite IH.
  destruct (final_content ws l); [done|].
  destruct (decide (w.1 = l)) as [<-|Hne].
  - by rewrite lookup_insert_eq.
  - by rewrite lookup_insert_ne.
Qed.

Lemma final_content_app ws1 ws2 l :
  final_content (ws1 ++ ws2) l =
    match final_content ws2 l with
    | Some content => Some content
    | None => final_content ws1 l
    end.
Proof.
  induction ws1 as [|w ws1 IH]; simpl.
  - by destruct (final_content ws2 l).
  - rewrite IH. by destruct (final_content ws2 l).
Qed.

Lemma final_content_None ws l : l ∉ ws.*1 → final_content ws l = None.
Proof.
  induction ws as [|w ws IH]; [done|]. rewrite fmap_cons, not_elem_of_cons.
  intros [Hne Hin]. simpl. rewrite IH by done. by rewrite decide_False.
Qed.

Lemma final_content_Some ws l content :
  final_content ws l = Some content → (l, content) ∈ ws.
Proof.
  induction ws as [|w ws IH]; [done|]. simpl.
  destruct (final_content ws l) as [c|].
  - intros [= ->]. right. by apply IH.
  - destruct w as [l' c']. simpl.
    destruct (decide (l' = l)) as [<-|]; [|done]. intros [= <-]. by left.
Qed.

(** With pairwise distinct locations, the order of the writes does not
    matter. *)
Lemma final_content_NoDup ws l content :
  NoDup ws.*1 → (l, content) ∈ ws → final_content ws l = Some content.
Proof.
  induction ws as [|w ws IH]; [by rewrite elem_of_nil|].
  rewrite fmap_cons, NoDup_cons, elem_of_cons. intros [Hnotin Hnd] [<-|Hin]; simpl in *.
  - rewrite final_content_None by done. by rewrite decide_True.
  - by rewrite IH.
Qed.

Lemma put_all_NoDup ws (m : gmap loc string) :
  NoDup ws.*1 → put_all ws m = list_to_map ws ∪ m.
Proof.
  intros Hnd. apply map_eq. intros l. rewrite put_all_lookup, lookup_union.
  destruct (final_content ws l) as [content|] eqn:Hfc.
  - apply final_content_Some in Hfc.
    rewrite (elem_of_list_to_map_1 ws l content) by done. by destruct (m !! l).
  - assert (list_to_map (M := gmap loc string) ws !! l = None) as ->.
    { apply not_elem_of_list_to_map_1. intros Hin. apply list_elem_of_fmap in Hin as ([l' c] & Heq & Hin).
      simpl in Heq. subst l. by rewrite (final_content_NoDup ws l' c) in Hfc. }
    by destruct (m !! l).
Qed.

End observations.

(** ** Lemmas for the properties *)

(** *** Computations only add to the file system *)

Section monotone.

Lemma monotone_bind {A B : Type} (m : M A) (f : A → M B) :
  monotone m → (∀ a, monotone (f a)) → monotone (m ≫= f).
Proof.
  intros Hm Hf st r st'. unfold mbind, M_bind.
  destruct (m st) as [[e|a] st1] eqn:Hrun.
  - intros [= <- <-]. by eapply Hm.
  - intros Hrest. eapply extends_trans; [by eapply Hm|by eapply Hf].
Qed.

Lemma monotone_lift {A : Type} (r : result A) : monotone (lift r).
Proof. destruct r; intros st r' st' [= _ <-]; apply extends_refl. Qed.

Lemma monotone_run_op o : monotone (run_op o).
Proof. intros st r st'. apply run_op_extends. Qed.

Lemma monotone_generate p content : monotone (generate p content).
Proof.
  apply monotone_bind; [apply (monotone_run_op (Makedirs _))|].
  intros _. apply (monotone_run_op (WriteFile _ _)).
Qed.

Lemma monotone_for_each {A : Type} (l : list A) (body : A → M unit) :
  (∀ x, monotone (body x)) → monotone (for_each l body).
Proof.
  intros Hbody. induction l as [|x l IH]; simpl.
  - intros st r st' [= _ <-]. apply extends_refl.
  - apply monotone_bind; [apply Hbody|done].
Qed.

Lemma monotone_generate_component component output_dir :
  monotone (generate_component component output_dir).
Proof.
  apply monotone_bind; [apply monotone_lift|]. intros content.
  apply monotone_bind; [apply monotone_lift|]. intros file_path.
  apply monotone_generate.
Qed.

End monotone.

Section scaffold_facts.

Lemma scaffolded_leads_all st out d :
  scaffolded st out d → Forall (λ parts, leads st out parts (d ++ parts)) STRUCTURE_DIRS.
Proof.
  intros Hsc. assert (leads st out ["public"] (d ++ ["public"])) as Hpublic.
  { destruct Hsc as [Hl Hdirs]. rewrite Forall_forall in Hdirs.
    apply (leads_snoc _ _ [] "public" d); [done..|].
    apply Hdirs. by apply (bool_decide_unpack _). }
  apply Forall_forall. intros parts Hin. unfold STRUCTURE_DIRS in Hin.
  repeat (apply elem_of_cons in Hin as [->|Hin]); [..|by apply elem_of_nil in Hin];
    first [done | by apply scaffolded_src
          | apply scaffolded_src_sub; [by apply (bool_decide_unpack _)|done..] ].
Qed.

Lemma scaffolded_isdir st out d :
  scaffolded st out d →
  Forall (λ parts, isdir st (OsPath.join out parts) = true) STRUCTURE_DIRS.
Proof.
  intros Hall%scaffolded_leads_all.
  assert (Forall (λ parts, Forall (λ n, plain n = true) parts ∧ parts ≠ []) STRUCTURE_DIRS)
    as Hplain by (repeat constructor; done).
  revert Hall Hplain. generalize STRUCTURE_DIRS.
  induction 1 as [|parts dirs Hl _ IH]; intros Hplain; [constructor|].
  apply Forall_cons in Hplain as [[Hp Hne] Hplain]. constructor; [|by apply IH].
  by eapply isdir_at.
Qed.

End scaffold_facts.

(** *** Configuration errors *)

Lemma generate_component_missing_id entries output_dir st :
  Py.dict_lookup "id" entries = None →
  generate_component (VDict entries) output_dir st = (inl (KeyError "id"), st).
Proof.
  intros Hid. unfold generate_component.
  assert (component_content (VDict entries) = inl (KeyError "id")) as ->; [|done].
  unfold component_content, Py.getitem. by rewrite Hid.
Qed.

(** *** Duplicate ids *)

Section duplicates.

Lemma theme_loc_not_component d id : theme_loc d ≠ component_loc d id.
Proof. unfold theme_loc, component_loc. intros H%app_inv_head. done. Qed.

Lemma index_js_loc_not_component d id : index_js_loc d ≠ component_loc d id.
Proof. unfold index_js_loc, component_loc. intros H%app_inv_head. done. Qed.

Lemma app_js_loc_not_component d id : app_js_loc d ≠ component_loc d id.
Proof. unfold app_js_loc, component_loc. intros H%app_inv_head. done. Qed.

Lemma package_json_loc_not_component d id : package_json_loc d ≠ component_loc d id.
Proof. unfold package_json_loc, component_loc. intros H%app_inv_head. done. Qed.

Lemma main_create_scaffolded config out st st' :
  valid_config config = true →
  main_create config out st = (inr tt, st') →
  ∃ d st1,
    cwd st' = cwd st ∧ grows (tree st) (tree st1) ∧ scaffolded st' out d
    ∧ tree st' = write_all (writes d config) (tree st1).
Proof.
  intros Hv (d & st1 & Hcwd & Hg & Hsc & Hall & ->)%main_create_inv; [|done].
  exists d, st1. split; [done|]. split; [done|]. split; [|done].
  eapply scaffolded_extends; [|exact Hsc]. split; [by cbn [cwd]|]. cbn [tree]. by apply keeps_write_all.
Qed.

End duplicates.

(** *** The fixed files *)

Section fixed_files.

Lemma write_file_reads p content st st' :
  Os.write_file p content st = (inr tt, st') → read_file st' p = Some content.
Proof.
  intros (head & name & d & Hcut & Hnul & Hname & Hw & Hd & Hn & ->)%write_file_inv.
  unfold read_file. rewrite Hcut. cbn [tree cwd].
  change (start {| cwd := cwd st; tree := _ |} p) with (start st p).
  rewrite (walk_keeps _ _ _ _ _ (keeps_insert_file _ _ content Hn) Hw).
  rewrite lookup_insert_eq, is_dir_at_insert_file, Hd by done.
  by apply orb_false_iff in Hname as [[-> _]%orb_false_iff _].
Qed.

Lemma final_content_components_None d (components : list value) l :
  (∀ id, l ≠ component_loc d id) →
  final_content (map (component_write d) components) l = None.
Proof.
  intros Hl. apply final_content_None. intros Hin.
  apply list_elem_of_fmap in Hin as ([l' c'] & Heq & Hin). simpl in Heq. subst l'.
  apply list_elem_of_fmap in Hin as (c & Hw & _). injection Hw as Hloc _.
  by eapply Hl.
Qed.

Lemma writes_fixed d config :
  final_content (writes d config) (index_js_loc d) = Some INDEX_JS
  ∧ final_content (writes d config) (app_js_loc d) = Some APP_JS
  ∧ final_content (writes d config) (package_json_loc d) = Some PACKAGE_JSON.
Proof.
  unfold writes. rewrite !final_content_app. cbn [final_content theme_write fst snd].
  rewrite !decide_False
    by (unfold theme_loc, index_js_loc, app_js_loc, package_json_loc; by intros H%app_inv_head).
  rewrite !final_content_components_None
    by (intros id; first [apply index_js_loc_not_component | apply app_js_loc_not_component
                         | apply package_json_loc_not_component]).
  unfold fixed_writes. cbn [final_content fst snd].
  repeat split.
  - rewrite !decide_False
      by (unfold index_js_loc, app_js_loc, package_json_loc; by intros H%app_inv_head).
    by rewrite decide_True.
  - rewrite decide_False
      by (unfold index_js_loc, app_js_loc, package_json_loc; by intros H%app_inv_head).
    by rewrite decide_True.
  - by rewrite decide_True.
Qed.

Lemma main_create_fixed_files config output_dir st st' :
  valid_config config = true →
  main_create config output_dir st = (inr tt, st') →
  read_file st' (index_js_path output_dir) = Some INDEX_JS
  ∧ read_file st' (app_js_path output_dir) = Some APP_JS
  ∧ read_file st' (package_json_path output_dir) = Some PACKAGE_JSON.
Proof.
  intros Hv Hrun.
  destruct (main_create_scaffolded _ _ _ _ Hv Hrun) as (d & st1 & Hcwd & Hg & Hsc & Htree).
  destruct (writes_fixed d config) as (Hi & Ha & Hp).
  pose proof (scaffolded_src _ _ _ Hsc) as Hsrc. destruct Hsc as [Hroot _].
  split; [|split].
  - apply (read_file_at output_dir ["src"] "index.js" _ st' (d ++ ["src"]));
      [by repeat constructor|done..|].
    rewrite <-app_assoc, Htree, write_all_lookup. by setoid_rewrite Hi.
  - apply (read_file_at output_dir ["src"] "App.js" _ st' (d ++ ["src"]));
      [by repeat constructor|done..|].
    rewrite <-app_assoc, Htree, write_all_lookup. by setoid_rewrite Ha.
  - apply (read_file_at output_dir [] "package.json" _ st' d); [by repeat constructor|done..|].
    rewrite Htree, write_all_lookup. by setoid_rewrite Hp.
Qed.

End fixed_files.

(** *** Components *)

Section component_facts.


Lemma ends_with_slash_app (a b : string) :
  is_empty b = false → ends_with_slash (a +:+ b) = ends_with_slash b.
Proof.
  intros Hb. induction a as [|c a IH]; [done|]. rewrite sapp_cons. simpl.
  rewrite IH. destruct (a +:+ b) eqn:Hab; [|done].
  apply (f_equal is_empty) in Hab. rewrite is_empty_app, Hb, andb_false_r in Hab. done.
Qed.

(** The path of a component file, written out, for an output directory
    given without a trailing slash and an id that is not absolute. *)
Lemma component_path_literal output_dir id :
  is_empty output_dir = false → ends_with_slash output_dir = false →
  starts_with_slash id = false →
  OsPath.join output_dir ["src"; "components"; id +:+ ".js"]
  = output_dir +:+ "/src/components/" +:+ id +:+ ".js".
Proof.
  intros He Hs Hid. unfold OsPath.join. simpl. unfold OsPath.join2 at 3. simpl.
  rewrite He, Hs. simpl. unfold OsPath.join2 at 2. simpl.
  rewrite is_empty_app, He, ends_with_slash_app by done. simpl.
  unfold OsPath.join2.
  assert (starts_with_slash (id +:+ ".js") = false) as -> by (by destruct id).
  rewrite !is_empty_app, He, !ends_with_slash_app by done. simpl.
  by rewrite !sapp_assoc.
Qed.

End component_facts.

(** *** The directory tree *)

Section structure.

Implicit Types t : gmap loc node.
Implicit Types cur : loc.

Lemma keeps_insert_both t (s : gmap loc node) l n : keeps t s → keeps (<[l := n]> t) (<[l := n]> s).
Proof.
  intros Hk l' n' Hl'. destruct (decide (l = l')) as [<-|Hne].
  - rewrite lookup_insert_eq in *. eauto.
  - rewrite lookup_insert_ne in * by done. eauto.
Qed.

Lemma keeps_insert_present t (s : gmap loc node) l : keeps t s → is_dir_at s l = true → keeps (<[l := Dir]> t) s.
Proof.
  intros Hk Hs l' n' Hl'. destruct (decide (l = l')) as [<-|Hne].
  - rewrite lookup_insert_eq in Hl'. injection Hl' as <-.
    apply is_dir_at_true in Hs. eauto.
  - rewrite lookup_insert_ne in Hl' by done. eauto.
Qed.

(** Directories that are already there, and entries that are not in the
    way, do not make [makedirs] fail. *)
Lemma makedirs_from_compatible (cs : list string) cur t t1 (s : gmap loc node) :
  Os.makedirs_from cs cur t = (inr tt, t1) → keeps t s → clear_for t1 s →
  ∃ s1 : gmap loc node,
    Os.makedirs_from cs cur s = (inr tt, s1) ∧ keeps t1 s1 ∧ grows s s1.
Proof.
  revert cur t s. induction cs as [|c cs IH]; intros cur t s; simpl.
  - destruct (is_dir_at t cur) eqn:Hd; [|done]. intros [= <-] Hk _.
    rewrite (keeps_is_dir _ _ _ Hk Hd). exists s. split; [done|]. split; [done|apply grows_refl].
  - destruct (has_nul c); [done|].
    destruct (is_dir_at t cur) eqn:Hd; simpl; [|done]. intros Hrun Hk Hclear.
    rewrite (keeps_is_dir _ _ _ Hk Hd). simpl.
    destruct (String.eqb c "."); [by eapply IH|].
    destruct (String.eqb c ".."); [by eapply IH|].
    destruct (t !! (cur ++ [c])) as [n|] eqn:Hl.
    + destruct (Hk _ _ Hl) as (n' & -> & _). by eapply IH.
    + pose proof (makedirs_from_grows _ _ _ _ _ Hrun) as Hg%grows_keeps.
      assert (is_dir_at t1 (cur ++ [c]) = true) as Hnew.
      { eapply keeps_is_dir; [done|]. apply is_dir_at_true, lookup_insert_eq. }
      destruct (Hclear _ Hnew) as [Hs|Hs].
      * rewrite Hs.
        destruct (IH _ _ (<[cur ++ [c] := Dir]> s) Hrun) as (s1 & Hrun' & Hk1 & Hg1).
        { by apply keeps_insert_both. }
        { intros l Hl1. destruct (decide (cur ++ [c] = l)) as [<-|Hne].
          - right. apply is_dir_at_true, lookup_insert_eq.
          - unfold is_dir_at. rewrite lookup_insert_ne by done. by apply Hclear. }
        exists s1. split; [done|]. split; [done|].
        eapply grows_trans; [|done]. by apply grows_insert_dir.
      * assert (∃ n, s !! (cur ++ [c]) = Some n) as [n ->].
        { apply is_dir_at_true in Hs. eauto. }
        eapply IH; [done| |done]. by apply keeps_insert_present.
Qed.

Lemma run_makedirs_grows (names : list string) (st : fs) r (st' : fs) :
  run (map (λ name, Do (Makedirs name)) names) st = (r, st') →
  cwd st' = cwd st ∧ grows (tree st) (tree st').
Proof.
  revert st. induction names as [|name names IH]; intros st; simpl.
  - intros [= _ <-]. split; [done|apply grows_refl].
  - unfold mbind, M_bind. destruct (Os.makedirs name st) as [[e|[]] st1] eqn:Hmk.
    + intros [= _ <-]. by apply makedirs_inv in Hmk as (? & ? & _).
    + apply makedirs_inv in Hmk as (Hcwd & Hg & _). intros [Hcwd' Hg']%IH.
      split; [congruence|by eapply grows_trans].
Qed.

Lemma clear_for_grows t' (s s1 : gmap loc node) : clear_for t' s → grows s s1 → clear_for t' s1.
Proof.
  intros Hclear Hg l Hl. unfold is_dir_at.
  destruct (Hg l) as [->|[_ ->]]; [by apply Hclear|by right].
Qed.

Lemma run_makedirs_compatible (names : list string) (st st' s : fs) :
  run (map (λ name, Do (Makedirs name)) names) st = (inr tt, st') →
  cwd s = cwd st → keeps (tree st) (tree s) → clear_for (tree st') (tree s) →
  ∃ s', run (map (λ name, Do (Makedirs name)) names) s = (inr tt, s')
        ∧ keeps (tree st') (tree s') ∧ grows (tree s) (tree s').
Proof.
  revert st s. induction names as [|name names IH]; intros st s; simpl.
  - intros [= <-] _ Hk _. exists s. split; [done|]. split; [done|apply grows_refl].
  - intros ([] & st1 & Hmk & Hrest)%bind_inr Hcwd Hk Hclear.
    pose proof (run_makedirs_grows _ _ _ _ Hrest) as [Hcwd1 Hg1].
    pose proof (makedirs_inv _ _ _ _ Hmk) as (Hcwd0 & _ & _).
    unfold Os.makedirs in Hmk. destruct (is_empty name) eqn:He; [done|].
    destruct (Os.makedirs_from _ _ (tree st)) as [r t1] eqn:Hfrom.
    injection Hmk as -> <-. cbn [tree cwd] in *.
    destruct (makedirs_from_compatible _ _ _ _ (tree s) Hfrom Hk) as (s1 & Hfrom' & Hk1 & Hgs).
    { intros l Hl. apply Hclear. by eapply keeps_is_dir; [apply grows_keeps|]. }
    destruct (IH _ (Fs (cwd s) s1) Hrest) as (s' & Hrun' & Hk' & Hg').
    { cbn [cwd]. congruence. }
    { done. }
    { cbn [tree]. by eapply clear_for_grows. }
    exists s'. split; [|split; [done|by eapply grows_trans]].
    apply bind_inr. exists tt, (Fs (cwd s) s1). split; [|done].
    unfold Os.makedirs. rewrite He, (start_cwd st) by done. by rewrite Hfrom'.
Qed.

Lemma plan_structure_names output_dir :
  plan_structure output_dir PROJECT_STRUCTURE
  = map (λ name, Do (Makedirs name)) (map (OsPath.join output_dir) STRUCTURE_DIRS).
Proof. reflexivity. Qed.

End structure.

(** *** How many files *)

Section counting.

Implicit Types d l : loc.

Lemma component_write_locs d (components : list value) :
  Forall (λ c, valid_component c = true) components →
  (map (component_write d) components).*1 = component_loc d <$> ids_of components.
Proof.
  induction 1 as [|c cs Hc _ IH]; [done|].
  destruct (valid_component_inv _ Hc) as (id & _ & Hid & _).
  unfold ids_of in *. cbn [map fmap list_fmap omap list_omap]. rewrite Hid.
  cbn [fmap list_fmap]. f_equal; [|done]. unfold component_write. by rewrite Hid.
Qed.

Lemma writes_locs d config :
  valid_config config = true →
  (writes d config).*1 =
    [index_js_loc d; app_js_loc d; package_json_loc d]
    ++ (component_loc d <$> ids_of (config_components config)) ++ [theme_loc d].
Proof.
  intros (theme & _ & _ & _ & Hvalid)%valid_config_inv.
  unfold writes. rewrite !fmap_app. by rewrite (component_write_locs d _ Hvalid).
Qed.

#[global] Instance component_loc_inj' d : Inj (=) (=) (component_loc d).
Proof. intros id id'. apply component_loc_inj. Qed.

Lemma writes_NoDup d config :
  valid_config config = true →
  NoDup (ids_of (config_components config)) →
  NoDup (writes d config).*1.
Proof.
  intros Hv Hnd. rewrite writes_locs by done.
  apply NoDup_app. split; [|split].
  - apply NoDup_cons. split.
    { rewrite !not_elem_of_cons. repeat split; [..|apply not_elem_of_nil];
        unfold index_js_loc, app_js_loc, package_json_loc; by intros H%app_inv_head. }
    apply NoDup_cons. split.
    { rewrite !not_elem_of_cons. repeat split; [..|apply not_elem_of_nil];
        unfold index_js_loc, app_js_loc, package_json_loc; by intros H%app_inv_head. }
    apply NoDup_singleton.
  - intros l Hl Hin. apply elem_of_app in Hin as [Hin|Hin].
    + apply list_elem_of_fmap in Hin as (id & -> & _).
      revert Hl. rewrite !elem_of_cons, elem_of_nil. intros [H|[H|[H|[]]]]; symmetry in H;
        revert H; first [apply index_js_loc_not_component | apply app_js_loc_not_component
                        | apply package_json_loc_not_component].
    + apply list_elem_of_singleton in Hin as ->.
      revert Hl. rewrite !elem_of_cons, elem_of_nil.
      unfold theme_loc, index_js_loc, app_js_loc, package_json_loc.
      by intros [H%app_inv_head|[H%app_inv_head|[H%app_inv_head|[]]]].
  - apply NoDup_app. split; [by apply (NoDup_fmap_2 (component_loc d))|]. split; [|apply NoDup_singleton].
    intros l Hl Hin. apply list_elem_of_singleton in Hin as ->.
    apply list_elem_of_fmap in Hl as (id & Hl & _).
    by apply theme_loc_not_component in Hl.
Qed.

Lemma writes_below d config l content :
  (l, content) ∈ writes d config → d `prefix_of` l.
Proof.
  unfold writes, fixed_writes. rewrite !elem_of_app, !elem_of_cons, !elem_of_nil.
  intros [[H|[H|[H|[]]]]|[H|[H|[]]]].
  - injection H as -> _. by eexists.
  - injection H as -> _. by eexists.
  - injection H as -> _. by eexists.
  - apply list_elem_of_fmap in H as (c & H & _). injection H as -> _. by eexists.
  - injection H as -> _. by eexists.
Qed.

End counting.

(** ** The properties of the specification *)




(** C2, as the code has it. Two components with the same id are not
    reported: both are written to the same path, the later over the
    earlier. After a successful run the file [src/components/<id>.js]
    holds the text of the last component that has the id. *)
Theorem duplicate_ids_last_wins config output_dir st st' before component after :
  valid_config config = true →
  main_create config output_dir st = (inr tt, st') →
  config_components config = before ++ component :: after →
  (∀ c, c ∈ after → component_id c ≠ component_id component) →
  ∃ id title,
    component_id component = Some id ∧ component_title component = Some title
    ∧ read_file st' (OsPath.join output_dir ["src"; "components"; id +:+ ".js"])
      = Some (component_text (capitalize id) (Py.str title)).
Proof.
  intros Hv Hrun Hcs Hlast.
  destruct (valid_config_inv _ Hv) as (theme & _ & _ & _ & Hvalid).
  destruct (main_create_scaffolded _ _ _ _ Hv Hrun) as (d & st1 & Hcwd & Hg & Hsc & Htree).
  rewrite Hcs in Hvalid. apply Forall_app in Hvalid as [_ Hvalid].
  apply Forall_cons in Hvalid as [Hc Hafter].
  destruct (valid_component_inv _ Hc) as (id & title & Hid & Htitle & Hvid & _).
  exists id, title. split; [done|]. split; [done|].
  assert (component_text_of component = component_text (capitalize id) (Py.str title)) as <-.
  { unfold component_text_of. by rewrite Hid, Htitle. }
  apply (read_file_at output_dir ["src"; "components"] (id +:+ ".js") _ st'
           (d ++ ["src"; "components"])).
  - by repeat constructor.
  - by apply plain_js.
  - apply scaffolded_src_sub; [by apply (bool_decide_unpack _)|done..].
  - rewrite Htree, write_all_lookup. unfold writes. rewrite Hcs.
    rewrite <-app_assoc. change ((d ++ ["src"; "components"]) ++ [id +:+ ".js"])
      with (component_loc d id).
    rewrite !final_content_app. simpl.
    rewrite decide_False by apply theme_loc_not_component.
    rewrite map_app, final_content_app. simpl.
    rewrite final_content_None.
    + unfold component_write at 1. rewrite Hid. simpl. by rewrite decide_True.
    + intros Hin. apply list_elem_of_fmap in Hin as ([l' c'] & Heq & Hin). simpl in Heq. subst l'.
      apply list_elem_of_fmap in Hin as (c & Hw & Hin). injection Hw as Hloc _.
      pose proof (Hlast c Hin) as Hne. rewrite Forall_forall in Hafter.
      destruct (valid_component_inv _ (Hafter c Hin)) as (id' & _ & Hid' & _).
      rewrite Hid' in Hloc, Hne. simpl in Hloc. apply component_loc_inj in Hloc. congruence.
Qed.

Lemma duplicate_ids_last_wins_witness :
  read_file (main_create duplicate_ids_config "./output" fs_home).2
    "./output/src/components/chart.js"
  = Some (component_text "Chart" "Costs").
Proof.
  destruct (duplicate_ids_last_wins duplicate_ids_config "./output" fs_home
              (main_create duplicate_ids_config "./output" fs_home).2
              [VDict [("id", VStr "chart"); ("options", VDict [("title", VStr "Sales")])]]
              (VDict [("id", VStr "chart"); ("options", VDict [("title", VStr "Costs")])])
              []) as (id & title & Hid & Htitle & Hread).
  - reflexivity.
  - vm_compute. reflexivity.
  - reflexivity.
  - intros c Hc. by apply elem_of_nil in Hc.
  - cbv in Hid, Htitle. injection Hid as <-. injection Htitle as <-. exact Hread.
Defined.

(** C2, as the specification has it, fails: with two components of id
    [chart] the run succeeds, and [chart.js] holds the second one. *)
Lemma duplicate_ids_not_reported :
  let r := main_create duplicate_ids_config "./output" fs_home in
  r.1 = inr tt
  ∧ read_file r.2 "./output/src/components/chart.js" = Some (component_text "Chart" "Costs")
  ∧ size (files r.2) = 5.
Proof. vm_compute. repeat split; reflexivity. Qed.


(** C4. Choice 2 of [main] asks for the directory and calls
    [purge_dashboard], a name the module never defines: whatever the path,
    the call raises [NameError] and the file system is left as it was. In
    particular a generated project is still there afterwards, its root
    directory and its five files. *)
Theorem purge_dashboard_undefined :
  (∀ config answer st,
     main "2" config answer st = (inl (NameError "purge_dashboard"), st))
  ∧ (let r := main "2" VNone "./output" fs_generated in
     r.1 = inl (NameError "purge_dashboard")
     ∧ isdir fs_generated "./output" = true
     ∧ isdir r.2 "./output" = true
     ∧ size (files r.2) = 5).
Proof. split; [reflexivity|]. vm_compute. repeat split; reflexivity. Qed.

(** C5. For a well-formed configuration with [n] distinct component ids,
    a run that succeeds has written [n + 4] files and touched no other:
    the files afterwards are the ones from before and the written ones.
    The written ones are [src/index.js], [src/App.js], [package.json] and
    [src/themes/theme.js] below the output directory, and one
    [src/components/<id>.js] for every id, [n] in all, all of them
    different. When the output directory held no file before the run, it
    holds exactly [n + 4] after it. *)
Theorem generated_file_count config output_dir st st' :
  valid_config config = true →
  NoDup (ids_of (config_components config)) →
  main_create config output_dir st = (inr tt, st') →
  let n := length (config_components config) in
  let ids := ids_of (config_components config) in
  ∃ d, leads st' output_dir [] d ∧
    let written : gmap loc string := list_to_map (writes d config) in
    let fixed : gset loc :=
      {[ index_js_loc d; app_js_loc d; package_json_loc d; theme_loc d ]} in
    let per_component : gset loc := list_to_set (component_loc d <$> ids) in
    files st' = written ∪ files st
    ∧ dom written = fixed ∪ per_component
    ∧ size written = n + 4
    ∧ size per_component = n ∧ length ids = n
    ∧ size fixed = 4
    ∧ fixed ## per_component
    ∧ ((∀ l, d `prefix_of` l → files st !! l = None) →
       size (filter (λ lc, d `prefix_of` lc.1) (files st')) = n + 4).
Proof.
  intros Hv Hnd Hrun n ids.
  destruct (main_create_scaffolded _ _ _ _ Hv Hrun) as (d & st1 & Hcwd & Hg & Hsc & Htree).
  destruct (valid_config_inv _ Hv) as (theme & _ & _ & _ & Hvalid).
  pose proof (writes_NoDup d config Hv Hnd) as Hwnd.
  exists d. split; [apply Hsc|]. intros written fixed per_component.
  assert (length ids = n) as Hlen.
  { unfold ids, n. rewrite <-(length_fmap (component_loc d)), <-component_write_locs by done.
    by rewrite length_fmap, length_map. }
  assert (files st' = written ∪ files st) as Hfiles.
  { rewrite <-(files_same st st1 Hg). unfold written. rewrite <-put_all_NoDup by done.
    destruct st' as [c' t'], st1 as [c1 t1]. cbn [tree] in *. subst t'. apply files_write_all. }
  assert (size written = n + 4) as Hsize.
  { unfold written. rewrite map_size_list_to_map by done.
    rewrite <-(length_fmap fst), writes_locs by done.
    rewrite !length_app, length_fmap. fold ids. rewrite Hlen. simpl. lia. }
  assert (size per_component = n) as Hper.
  { unfold per_component. rewrite size_list_to_set by by apply (NoDup_fmap_2 (component_loc d)).
    by rewrite length_fmap. }
  assert (fixed ## per_component) as Hdisj.
  { unfold fixed, per_component. intros l Hfixed Hin.
    apply elem_of_list_to_set, list_elem_of_fmap in Hin as (id & -> & _).
    revert Hfixed. rewrite !elem_of_union, !elem_of_singleton.
    intros [[[H|H]|H]|H]; symmetry in H; revert H;
      first [apply index_js_loc_not_component | apply app_js_loc_not_component
            | apply package_json_loc_not_component | apply theme_loc_not_component]. }
  assert (dom written = fixed ∪ per_component) as Hdom.
  { unfold written. rewrite dom_list_to_map_L, writes_locs by done.
    unfold fixed, per_component. fold ids. apply set_eq. intros l.
    rewrite elem_of_list_to_set, !elem_of_app, !elem_of_cons, elem_of_nil, !elem_of_union,
      !elem_of_singleton, elem_of_list_to_set. tauto. }
  split; [done|]. split; [done|]. split; [done|]. split; [done|]. split; [done|].
  split.
  { apply (f_equal size) in Hdom. rewrite size_dom, size_union, Hsize, Hper in Hdom by done.
    lia. }
  split; [done|].
  intros Hfresh. rewrite Hfiles.
  assert (∀ l content, written !! l = Some content → d `prefix_of` l) as Hbelow.
  { intros l content Hl. apply elem_of_list_to_map_2 in Hl. by eapply writes_below. }
  rewrite map_filter_union.
  - rewrite (map_filter_id _ written) by (intros l content Hl; by eapply Hbelow).
    assert (filter (λ lc : loc * string, d `prefix_of` lc.1) (files st) = ∅) as ->.
    { apply map_empty. intros l. apply map_lookup_filter_None. right. intros content Hl Hp.
      simpl in Hp. by rewrite Hfresh in Hl. }
    by rewrite (right_id_L ∅ (∪)).
  - apply map_disjoint_spec. intros l c1 c2 Hl1 Hl2.
    rewrite Hfresh in Hl2; [done|]. by eapply Hbelow.
Qed.

Lemma generated_file_count_witness :
  let st' := (main_create chart_config "./output" fs_home).2 in
  ∃ d, leads st' "./output" [] d ∧
    files st' = list_to_map (writes d chart_config) ∪ files fs_home
    ∧ size (list_to_map (writes d chart_config) : gmap loc string) = 1 + 4
    ∧ size (filter (λ lc : loc * string, d `prefix_of` lc.1) (files st')) = 1 + 4.
Proof.
  destruct (generated_file_count chart_config "./output" fs_home
              (main_create chart_config "./output" fs_home).2)
    as (d & Hd & Hfiles & _ & Hsize & _ & _ & _ & _ & Hfresh).
  - reflexivity.
  - apply NoDup_singleton.
  - vm_compute. reflexivity.
  - exists d. split; [done|]. split; [done|]. split; [done|]. apply Hfresh.
    intros l _. reflexivity.
Defined.



(** C7. [create_project_structure] touches directories only: whatever
    its outcome, the regular files are what they were and the only new
    entries are directories. When it succeeds, every directory of the
    fixed tree exists below the output directory. It is idempotent: run
    again on the file system it left, it succeeds and changes nothing; and
    run on a file system that already holds any part of the tree, or any
    other entry that is not a regular file in the place of one of the
    directories, it succeeds again and writes no file. *)
Theorem create_project_structure_idempotent output_dir st r st' :
  create_project_structure output_dir PROJECT_STRUCTURE st = (r, st') →
  cwd st' = cwd st ∧ grows (tree st) (tree st') ∧ files st' = files st
  ∧ (r = inr tt →
     Forall (λ parts, isdir st' (OsPath.join output_dir parts) = true)
       [ ["public"]; ["src"]; ["src"; "components"]; ["src"; "layouts"]; ["src"; "pages"];
         ["src"; "services"]; ["src"; "themes"]; ["src"; "utils"]; ["src"; "mockData"] ]
     ∧ create_project_structure output_dir PROJECT_STRUCTURE st' = (inr tt, st')
     ∧ ∀ s, cwd s = cwd st → keeps (tree st) (tree s) → clear_for (tree st') (tree s) →
         ∃ s', create_project_structure output_dir PROJECT_STRUCTURE s = (inr tt, s')
               ∧ grows (tree s) (tree s') ∧ files s' = files s).
Proof.
  intros Hrun.
  assert (cwd st' = cwd st ∧ grows (tree st) (tree st')) as [Hcwd Hg].
  { rewrite create_project_structure_plan, plan_structure_names in Hrun.
    by eapply run_makedirs_grows. }
  split; [done|]. split; [done|]. split; [by apply (files_same st st')|].
  intros ->. split; [|split].
  - destruct (create_project_structure_inv _ _ _ Hrun) as (_ & _ & d & Hsc).
    by apply (scaffolded_isdir _ _ d).
  - rewrite create_project_structure_plan in *. by eapply run_twice.
  - intros s Hcwds Hk Hclear.
    rewrite create_project_structure_plan, plan_structure_names in Hrun.
    destruct (run_makedirs_compatible _ _ _ s Hrun Hcwds Hk Hclear) as (s' & Hrun' & _ & Hgs).
    exists s'. rewrite create_project_structure_plan, plan_structure_names.
    split; [done|]. split; [done|by apply (files_same s s')].
Qed.

Lemma create_project_structure_idempotent_witness :
  let st' := (create_project_structure "./output" PROJECT_STRUCTURE fs_home).2 in
  isdir st' "./output/src/mockData" = true
  ∧ create_project_structure "./output" PROJECT_STRUCTURE st' = (inr tt, st')
  ∧ files st' = files fs_home.
Proof.
  destruct (create_project_structure_idempotent "./output" fs_home (inr tt)
              (create_project_structure "./output" PROJECT_STRUCTURE fs_home).2)
    as (_ & _ & Hfiles & H).
  { vm_compute. reflexivity. }
  destruct (H eq_refl) as (Hdirs & Hagain & _).
  split; [|by split].
  rewrite Forall_forall in Hdirs. apply (Hdirs ["src"; "mockData"]).
  by apply (bool_decide_unpack _).
Defined.

(** C8. [generate_index_js], [generate_app_js] and [generate_package_json]
    take no configuration and write a constant: whenever one of them
    succeeds, its file holds the fixed text. After a whole run the three
    files hold these same texts whatever the (well-formed) configuration
    was, so for any two configurations they are identical. *)
Theorem fixed_files_constant :
  (∀ output_dir st st',
     generate_index_js output_dir st = (inr tt, st') →
     read_file st' (index_js_path output_dir) = Some INDEX_JS)
  ∧ (∀ output_dir st st',
     generate_app_js output_dir st = (inr tt, st') →
     read_file st' (app_js_path output_dir) = Some APP_JS)
  ∧ (∀ output_dir st st',
     generate_package_json output_dir st = (inr tt, st') →
     read_file st' (package_json_path output_dir) = Some PACKAGE_JSON)
  ∧ (∀ config1 config2 output_dir st1 st1' st2 st2',
     valid_config config1 = true → valid_config config2 = true →
     main_create config1 output_dir st1 = (inr tt, st1') →
     main_create config2 output_dir st2 = (inr tt, st2') →
     (read_file st1' (index_js_path output_dir) = Some INDEX_JS
      ∧ read_file st2' (index_js_path output_dir) = Some INDEX_JS)
     ∧ (read_file st1' (app_js_path output_dir) = Some APP_JS
        ∧ read_file st2' (app_js_path output_dir) = Some APP_JS)
     ∧ (read_file st1' (package_json_path output_dir) = Some PACKAGE_JSON
        ∧ read_file st2' (package_json_path output_dir) = Some PACKAGE_JSON)).
Proof.
  split; [|split; [|split]].
  - intros out st st' Hrun. by apply generate_writes_one in Hrun as (_ & ? & _).
  - intros out st st' Hrun. by apply generate_writes_one in Hrun as (_ & ? & _).
  - intros out st st'. apply write_file_reads.
  - intros config1 config2 out st1 st1' st2 st2' Hv1 Hv2 Hrun1 Hrun2.
    destruct (main_create_fixed_files _ _ _ _ Hv1 Hrun1) as (? & ? & ?).
    destruct (main_create_fixed_files _ _ _ _ Hv2 Hrun2) as (? & ? & ?). done.
Qed.

Lemma fixed_files_constant_witness :
  let st1 := (main_create chart_config "./output" fs_home).2 in
  let st2 := (main_create duplicate_ids_config "./output" fs_home).2 in
  (read_file st1 "./output/src/index.js" = Some INDEX_JS
   ∧ read_file st2 "./output/src/index.js" = Some INDEX_JS)
  ∧ (read_file st1 "./output/src/App.js" = Some APP_JS
     ∧ read_file st2 "./output/src/App.js" = Some APP_JS)
  ∧ (read_file st1 "./output/package.json" = Some PACKAGE_JSON
     ∧ read_file st2 "./output/package.json" = Some PACKAGE_JSON).
Proof.
  destruct fixed_files_constant as (_ & _ & _ & H).
  apply (H chart_config duplicate_ids_config "./output" fs_home _ fs_home _).
  - reflexivity.
  - reflexivity.
  - vm_compute. reflexivity.
  - vm_compute. reflexivity.
Defined.

(** C9, as the code has it. Nothing looks at the components before the
    file system is touched. A component without an ['id'] raises
    [KeyError] when the loop reaches it, and not before: by then the
    directory tree has been made, [index.js], [App.js] and [package.json]
    have been written, and so have the files of the components that come
    before it. What was written stays. *)
Theorem missing_id_raises_late config before entries after output_dir st :
  Py.get config "components" (VList []) = inr (VList (before ++ VDict entries :: after)) →
  Py.dict_lookup "id" entries = None →
  let earlier : M unit :=
    create_project_structure output_dir PROJECT_STRUCTURE ;;
    generate_index_js output_dir ;;
    generate_app_js output_dir ;;
    generate_package_json output_dir ;;
    for_each before (λ component, generate_component component output_dir) in
  main_create config output_dir st = (earlier ;; raise (KeyError "id")) st
  ∧ ∀ st1, earlier st = (inr tt, st1) →
      main_create config output_dir st = (inl (KeyError "id"), st1)
      ∧ Forall (λ parts, isdir st1 (OsPath.join output_dir parts) = true) STRUCTURE_DIRS.
Proof.
  intros Hcs Hid earlier.
  assert (main_create config output_dir st = (earlier ;; raise (KeyError "id")) st) as Heq.
  { unfold earlier, main_create.
    rewrite bind_assoc. apply bind_ext. intros _ s1.
    rewrite bind_assoc. apply bind_ext. intros _ s2.
    rewrite bind_assoc. apply bind_ext. intros _ s3.
    rewrite bind_assoc. apply bind_ext. intros _ s4.
    rewrite lift_bind, Hcs. cbv beta iota.
    change ((c ← inr (VList (before ++ VDict entries :: after)); Py.iter c))
      with (inr (A := exn) (before ++ VDict entries :: after)). cbv beta iota.
    rewrite (bind_cong _ (for_each before (λ c, generate_component c output_dir) ;;
                          for_each (VDict entries :: after) (λ c, generate_component c output_dir))
               _ _ _ (for_each_app _ _ _ _) (λ _ _, eq_refl)).
    rewrite bind_assoc. apply bind_ext. intros _ s5.
    cbn [for_each]. rewrite bind_assoc.
    by rewrite (bind_fail _ _ _ _ _ (generate_component_missing_id _ _ _ Hid)). }
  split; [done|]. intros st1 Hrun. split.
  { rewrite Heq. by rewrite (bind_run _ _ _ _ _ Hrun). }
  apply bind_inr in Hrun as ([] & st0 & Hcps & Hrest).
  apply create_project_structure_inv in Hcps as (_ & _ & d & Hsc).
  apply (scaffolded_isdir _ _ d). eapply scaffolded_extends; [|done].
  revert Hrest. apply monotone_bind; [apply monotone_generate|]. intros _.
  apply monotone_bind; [apply monotone_generate|]. intros _.
  apply monotone_bind; [apply (monotone_run_op (WriteFile _ _))|]. intros _.
  apply monotone_for_each. intros c. apply monotone_generate_component.
Qed.

Lemma missing_id_raises_late_witness :
  main_create missing_id_config "./output" fs_home
  = (inl (KeyError "id"), (main_create missing_id_config "./output" fs_home).2)
  ∧ Forall (λ parts, isdir (main_create missing_id_config "./output" fs_home).2
                       (OsPath.join "./output" parts) = true) STRUCTURE_DIRS.
Proof.
  destruct (missing_id_raises_late missing_id_config [] [("type", VStr "chart")] []
              "./output" fs_home eq_refl eq_refl) as [_ H].
  apply H. vm_compute. reflexivity.
Defined.

(** C9, as the specification has it, fails: the configuration whose only
    component has no ['id'] raises [KeyError], and leaves behind the
    directory tree and the three fixed files. *)
Lemma missing_id_detected_after_writing :
  let r := main_create missing_id_config "./output" fs_home in
  r.1 = inl (KeyError "id")
  ∧ r.2 ≠ fs_home
  ∧ isdir r.2 "./output/src/components" = true
  ∧ read_file r.2 "./output/src/index.js" = Some INDEX_JS
  ∧ read_file r.2 "./output/src/App.js" = Some APP_JS
  ∧ read_file r.2 "./output/package.json" = Some PACKAGE_JSON.
Proof.
  split; [by vm_compute|]. split.
  - intros H%(f_equal (λ s, isdir s "./output")). vm_compute in H. done.
  - vm_compute. repeat split; reflexivity.
Qed.

(** C10. The id goes into the file path as it is. There is an id, one
    that starts with a slash, for which [generate_component] computes a
    path that has nothing of the output directory left in it, and writes
    its file in the root directory of the file system, whatever the output
    directory: not below [src/components], and not below the output
    directory unless that is the root itself. An id made of [..] segments
    escapes as well: with the default output directory the file lands next
    to [./output], in the working directory. *)
Theorem component_path_escapes :
  (∃ id, ∀ output_dir st st',
     component_path (VDict [("id", VStr id)]) output_dir = inr "/evil.js"
     ∧ (generate_component (VDict [("id", VStr id)]) output_dir st = (inr tt, st') →
        (∃ content, tree st' !! ["evil.js"] = Some (File content)
                    ∧ files st' = <[ ["evil.js"] := content ]> (files st))
        ∧ (∀ d, leads st' output_dir ["src"; "components"] d → ¬ d `prefix_of` ["evil.js"])
        ∧ (∀ d, leads st' output_dir [] d → d ≠ [] → ¬ d `prefix_of` ["evil.js"])))
  ∧ (let r := generate_component escaping_component "./output" fs_home in
     r.1 = inr tt
     ∧ component_path escaping_component "./output"
       = inr "./output/src/components/../../../evil.js"
     ∧ resolve r.2 "./output" = Some ["home"; "user"; "output"]
     ∧ isdir r.2 "./output/src/components" = true
     ∧ files r.2 = {[ ["home"; "user"; "evil.js"] := component_text "../../../evil" "Component" ]}).
Proof.
  split.
  - exists "/evil". intros out st st'. split; [done|].
    unfold generate_component. rewrite lift_bind.
    change (component_content _) with (inr (B := string) (A := exn) (component_text "/evil" "Component")).
    cbv beta iota. rewrite lift_bind.
    change (component_path _ out) with (inr (B := string) (A := exn) "/evil.js").
    cbv beta iota.
    intros ([] & st1 & Hmk & Hwr)%bind_inr.
    apply makedirs_inv in Hmk as (Hcwd & Hg & _).
    apply write_file_inv in Hwr as (head & name & d & Hcut & _ & _ & Hw & Hd & Hn & ->).
    injection Hcut as <- <-. injection Hw as <-. simpl.
    split; [|split].
    + eexists. split; [apply lookup_insert_eq|].
      unfold files. simpl. rewrite (omap_insert_Some _ _ _ _ (component_text "/evil" "Component")) by done.
      f_equal. apply (files_grows (cwd st) (cwd st1) _ _ Hg).
    + intros d Hl Hp%prefix_length.
      apply leads_plain_inv in Hl as (d0 & _ & ->); [|by repeat constructor].
      rewrite length_app in Hp. simpl in Hp. lia.
    + intros d (_ & _ & Hd') Hne [k Hk]. destruct d as [|n d]; [done|].
      injection Hk as <- Hk. symmetry in Hk. apply app_eq_nil in Hk as [-> _].
      apply is_dir_at_true in Hd'. simpl in Hd'. by rewrite lookup_insert_eq in Hd'.
  - vm_compute. repeat split; reflexivity.
Qed.

(** ** Further properties of the generation code *)

Section failures.

Implicit Types (st : fs) (component theme config : value).

Lemma lift_fails {A B : Type} (r : result A) (f : A → M B) e st :
  r = inl e → (lift r ≫= f) st = (inl e, st).
Proof. intros ->. by rewrite lift_bind. Qed.


End failures.

Section shapes.

Implicit Types (st : fs) (component theme config : value).

(** X1. Generation never removes anything. Whatever the configuration and
    whatever the outcome, also a failure half-way, the working directory
    is the same afterwards, every directory is still a directory and every
    regular file is still a regular file (its content may have been
    replaced). *)
Theorem generation_never_removes config output_dir st :
  let after := (main_create config output_dir st).2 in
  cwd after = cwd st
  ∧ (∀ l, is_dir_at (tree st) l = true → is_dir_at (tree after) l = true)
  ∧ (∀ l content, tree st !! l = Some (File content) →
       ∃ content', tree after !! l = Some (File content')).
Proof.
  intros after. subst after.
  destruct (main_create config output_dir st) as [r s] eqn:Hrun. simpl.
  rewrite main_create_plan in Hrun. apply run_extends in Hrun as [Hcwd Hk].
  split; [done|]. split.
  - intros l. by apply keeps_is_dir.
  - intros l content. by apply keeps_file.
Qed.




End shapes.

Section late_errors.

Implicit Types (st : fs) (component theme config : value).

(** X4. A configuration that is not a mapping, or whose ['components']
    are not something a loop can visit, is found out late. [main] has
    made the directories and written [index.js], [App.js] and
    [package.json] before it first looks at the configuration: the
    exception, [AttributeError] for a configuration that is not a mapping
    and [TypeError] for components that are [None], a boolean or a number,
    comes after them, and what was written stays. *)
Theorem components_not_iterable_raises_late config e output_dir st :
  (c ← Py.get config "components" (VList []); Py.iter c) = inl e →
  let earlier : M unit :=
    create_project_structure output_dir PROJECT_STRUCTURE ;;
    generate_index_js output_dir ;;
    generate_app_js output_dir ;;
    generate_package_json output_dir in
  ((∀ entries, config ≠ VDict entries) → e = AttributeError)
  ∧ ((∃ entries, config = VDict entries) → e = TypeError)
  ∧ main_create config output_dir st = (earlier ;; raise e) st
  ∧ ∀ st1, earlier st = (inr tt, st1) →
      main_create config output_dir st = (inl e, st1)
      ∧ Forall (λ parts, isdir st1 (OsPath.join output_dir parts) = true) STRUCTURE_DIRS
      ∧ read_file st1 (package_json_path output_dir) = Some PACKAGE_JSON.
Proof.
  intros He earlier.
  assert (main_create config output_dir st = (earlier ;; raise e) st) as Heq.
  { unfold earlier, main_create.
    rewrite bind_assoc. apply bind_ext. intros _ s1.
    rewrite bind_assoc. apply bind_ext. intros _ s2.
    rewrite bind_assoc. apply bind_ext. intros _ s3.
    apply bind_ext. intros _ s4. by rewrite lift_bind, He. }
  split; [|split; [|split; [done|]]].
  - intros Hno. destruct config; simpl in He; try (by injection He as <-). by edestruct Hno.
  - intros [entries ->]. simpl in He.
    destruct (Py.dict_lookup "components" entries) as [[]|]; simpl in He; try done;
      by injection He as <-.
  - intros st1 Hrun. split; [|split].
    + rewrite Heq. by rewrite (bind_run _ _ _ _ _ Hrun).
    + apply bind_inr in Hrun as ([] & st0 & Hcps & Hrest).
      apply create_project_structure_inv in Hcps as (_ & _ & d & Hsc).
      apply (scaffolded_isdir _ _ d). eapply scaffolded_extends; [|done].
      revert Hrest. apply monotone_bind; [apply monotone_generate|]. intros _.
      apply monotone_bind; [apply monotone_generate|]. intros _.
      apply (monotone_run_op (WriteFile _ _)).
    + apply bind_inr in Hrun as ([] & st0 & _ & Hrest).
      apply bind_inr in Hrest as ([] & st2 & _ & Hrest).
      apply bind_inr in Hrest as ([] & st3 & _ & Hrest).
      by apply write_file_reads in Hrest.
Qed.

Lemma components_not_iterable_raises_late_witness :
  main_create (VList [VStr "chart"]) "./output" fs_home
  = (inl AttributeError, (main_create (VList [VStr "chart"]) "./output" fs_home).2)
  ∧ read_file (main_create (VList [VStr "chart"]) "./output" fs_home).2
      "./output/package.json" = Some PACKAGE_JSON.
Proof.
  destruct (components_not_iterable_raises_late (VList [VStr "chart"]) AttributeError
              "./output" fs_home eq_refl) as (_ & _ & _ & H).
  destruct (H (main_create (VList [VStr "chart"]) "./output" fs_home).2) as (? & _ & ?).
  - vm_compute. reflexivity.
  - by split.
Defined.

(** X5. A ['theme'] that is there but is not a mapping (an empty
    [theme:] line in the YAML file gives [None]) is found out last:
    [generate_theme] raises [AttributeError] without touching the file
    system, and in [main] that happens after the directories, the three
    fixed files and every component file have been written. *)
Theorem theme_not_a_mapping_raises_last config components theme output_dir st :
  (c ← Py.get config "components" (VList []); Py.iter c) = inr components →
  Py.get config "theme" (VDict []) = inr theme →
  (∀ entries, theme ≠ VDict entries) →
  let earlier : M unit :=
    create_project_structure output_dir PROJECT_STRUCTURE ;;
    generate_index_js output_dir ;;
    generate_app_js output_dir ;;
    generate_package_json output_dir ;;
    for_each components (λ component, generate_component component output_dir) in
  (∀ s, generate_theme theme output_dir s = (inl AttributeError, s))
  ∧ main_create config output_dir st = (earlier ;; raise AttributeError) st
  ∧ ∀ st1, earlier st = (inr tt, st1) →
      main_create config output_dir st = (inl AttributeError, st1).
Proof.
  intros Hcs Htheme Hno earlier.
  assert (∀ s, generate_theme theme output_dir s = (inl AttributeError, s)) as Hgen.
  { intros s. unfold generate_theme. apply lift_fails.
    destruct theme; try done. by edestruct Hno. }
  assert (main_create config output_dir st = (earlier ;; raise AttributeError) st) as Heq.
  { unfold earlier, main_create.
    rewrite bind_assoc. apply bind_ext. intros _ s1.
    rewrite bind_assoc. apply bind_ext. intros _ s2.
    rewrite bind_assoc. apply bind_ext. intros _ s3.
    rewrite bind_assoc. apply bind_ext. intros _ s4.
    rewrite lift_bind, Hcs. apply bind_ext. intros _ s5.
    rewrite lift_bind, Htheme. apply Hgen. }
  split; [done|]. split; [done|].
  intros st1 Hrun. rewrite Heq. by rewrite (bind_run _ _ _ _ _ Hrun).
Qed.

Lemma theme_not_a_mapping_raises_last_witness :
  main_create null_theme_config "./output" fs_home
  = (inl AttributeError, (main_create null_theme_config "./output" fs_home).2)
  ∧ generate_theme VNone "./output" fs_home = (inl AttributeError, fs_home).
Proof.
  destruct (theme_not_a_mapping_raises_last null_theme_config
              [VDict [("id", VStr "chart")]] VNone "./output" fs_home)
    as (Hgen & _ & H); [reflexivity|reflexivity|done|].
  split; [|apply Hgen]. apply H. vm_compute. reflexivity.
Defined.

End late_errors.

Section more_structure.

Implicit Types (st : fs).

Lemma plan_structure_map base_dir structure :
  plan_structure base_dir structure
  = map (λ name, Do (Makedirs name)) (structure_names base_dir structure).
Proof.
  unfold plan_structure, structure_names.
  induction structure as [|entry structure IH]; [done|].
  cbn [flat_map]. rewrite map_app, IH. cbn [map]. by rewrite map_map.
Qed.

Lemma isdir_extends st (st' : fs) p : extends st st' → isdir st p = true → isdir st' p = true.
Proof.
  intros [Hcwd Hk]. unfold isdir, resolve.
  destruct (is_empty p); [done|]. rewrite (start_cwd st st' p Hcwd).
  destruct (walk (tree st) (start st p) (OsPath.components p)) as [d|] eqn:Hw; [|done].
  rewrite (walk_keeps _ _ _ _ _ Hk Hw). by apply keeps_is_dir.
Qed.

Lemma makedirs_isdir name st (st' : fs) :
  Os.makedirs name st = (inr tt, st') → isdir st' name = true.
Proof.
  intros Hmk. apply makedirs_inv in Hmk as (Hcwd & _ & H).
  destruct (H eq_refl) as (Hne & _ & d & Hw & Hd).
  unfold isdir, resolve. rewrite Hne.
  rewrite (start_cwd st st' name Hcwd). by rewrite Hw.
Qed.

Lemma run_makedirs_isdir (names : list string) st (st' : fs) :
  run (map (λ name, Do (Makedirs name)) names) st = (inr tt, st') →
  Forall (λ name, isdir st' name = true) names.
Proof.
  revert st. induction names as [|name names IH]; intros st Hrun; [constructor|].
  simpl in Hrun. apply bind_inr in Hrun as ([] & st1 & Hmk & Hrest).
  constructor; [|by eapply IH].
  apply run_extends in Hrest. eapply isdir_extends; [done|]. by eapply makedirs_isdir.
Qed.

(** X6. [create_project_structure] with any structure, not only the one
    the program uses: it never touches a regular file and adds nothing but
    directories, whatever its outcome; when it succeeds every folder and
    subfolder it was given is a directory; a second call on the result
    succeeds and changes nothing; and with an empty structure nothing is
    made, not even the base directory. *)
Theorem create_project_structure_any base_dir structure st :
  let r := create_project_structure base_dir structure st in
  cwd r.2 = cwd st ∧ grows (tree st) (tree r.2) ∧ files r.2 = files st
  ∧ (r.1 = inr tt →
     create_project_structure base_dir structure r.2 = (inr tt, r.2)
     ∧ ∀ folder subfolders, (folder, subfolders) ∈ structure →
         isdir r.2 (OsPath.join base_dir [folder]) = true
         ∧ ∀ subfolder, subfolder ∈ subfolders →
             isdir r.2 (OsPath.join base_dir [folder; subfolder]) = true)
  ∧ create_project_structure base_dir [] st = (inr tt, st).
Proof.
  intros r. subst r.
  destruct (create_project_structure base_dir structure st) as [r st'] eqn:Hrun. simpl.
  pose proof Hrun as Hplan. rewrite create_project_structure_plan, plan_structure_map in Hplan.
  destruct (run_makedirs_grows _ _ _ _ Hplan) as [Hcwd Hg].
  split; [done|]. split; [done|]. split; [by apply files_same|]. split; [|done].
  intros ->. split.
  - rewrite create_project_structure_plan in *. by eapply run_twice.
  - apply run_makedirs_isdir in Hplan. rewrite Forall_forall in Hplan.
    intros folder subfolders Hin. split.
    + apply Hplan. unfold structure_names. apply list_elem_of_In, in_flat_map.
      exists (folder, subfolders). split; [by apply list_elem_of_In|]. by left.
    + intros subfolder Hsub. apply Hplan. unfold structure_names.
      apply list_elem_of_In, in_flat_map.
      exists (folder, subfolders). split; [by apply list_elem_of_In|]. right.
      apply in_map_iff. exists subfolder. split; [done|]. by apply list_elem_of_In.
Qed.

End more_structure.

Section more_generators.

Implicit Types (st : fs) (config : value).

(** X7. [generate_package_json] makes no directory. It leaves the
    directories exactly as they are, changes nothing at all when it fails,
    and can only succeed when the output directory is already there; in
    an existing output directory it writes [package.json] unless the path
    has a NUL character or a directory of that name is in the way. *)
Theorem generate_package_json_makes_no_directory output_dir st :
  let r := generate_package_json output_dir st in
  cwd r.2 = cwd st
  ∧ (∀ l, is_dir_at (tree r.2) l = is_dir_at (tree st) l)
  ∧ (∀ e, r.1 = inl e → r.2 = st ∧ (e = FilesystemError ∨ e = ValueError))
  ∧ (r.1 = inr tt → is_empty output_dir = false → isdir st output_dir = true)
  ∧ (isdir st output_dir = true → is_empty output_dir = false ∧
     ∃ d, resolve st output_dir = Some d
          ∧ r = if has_nul output_dir then (inl ValueError, st)
                else if is_dir_at (tree st) (package_json_loc d) then (inl FilesystemError, st)
                else (inr tt, Fs (cwd st) (<[package_json_loc d := File PACKAGE_JSON]> (tree st)))).
Proof.
  intros r. subst r. unfold generate_package_json, package_json_path.
  destruct (file_path_facts output_dir [] "package.json") as (Hnul & Habs & (head & Hcut & Hcs) & _);
    [constructor|done|]. simpl app in *. rewrite app_nil_r in Hcs.
  destruct (Os.write_file (OsPath.join output_dir ["package.json"]) PACKAGE_JSON st)
    as [[e|[]] st'] eqn:Hrun; simpl.
  - pose proof (write_file_fail _ _ _ _ _ Hrun) as ->.
    split; [done|]. split; [done|]. split.
    { intros e' [= <-]. split; [done|]. apply (run_op_fails (WriteFile _ _) _ _ _ Hrun). }
    split; [done|]. intros Hdir. unfold isdir, resolve in *.
    destruct (is_empty output_dir) eqn:He; [done|]. split; [done|].
    destruct (walk (tree st) (start st output_dir) (OsPath.components output_dir))
      as [d|] eqn:Hw; [|done].
    exists d. split; [done|]. revert Hrun. unfold Os.write_file. rewrite Hnul.
    destruct (has_nul output_dir); [done|]. rewrite Hcut. cbv beta iota.
    rewrite (start_isabs st _ output_dir Habs), Hcs, Hw, Hdir. simpl.
    unfold package_json_loc. by destruct (is_dir_at (tree st) (d ++ ["package.json"])).
  - apply write_file_inv in Hrun
      as (head' & name & d & Hcut' & Hnul' & _ & Hw & Hd & Hfree & ->).
    rewrite Hcut in Hcut'. injection Hcut' as <- <-. simpl.
    rewrite (start_isabs st _ output_dir Habs), Hcs in Hw.
    split; [done|]. split; [intros l; by apply is_dir_at_insert_file|].
    split; [done|]. split.
    { intros _ He. unfold isdir, resolve. by rewrite He, Hw. }
    intros Hdir. unfold isdir, resolve in *.
    destruct (is_empty output_dir) eqn:He; [done|].
    split; [done|]. exists d. split; [done|]. rewrite <-Hnul, Hnul'.
    unfold package_json_loc. by rewrite Hfree.
Qed.

End more_generators.

Section after_a_run.

Implicit Types (st : fs) (config : value).

(** X8. After a successful run on a well-formed configuration the theme
    file holds the theme template filled in from the ['theme'] section of
    the configuration, with the defaults for what the section leaves out
    (all three when there is no section). *)
Theorem theme_file_after_run config output_dir st (st' : fs) :
  valid_config config = true →
  main_create config output_dir st = (inr tt, st') →
  read_file st' (theme_path output_dir)
  = Some (theme_text (theme_field (config_theme config) "mode" "light")
                     (theme_field (config_theme config) "primaryColor" "#1976d2")
                     (theme_field (config_theme config) "secondaryColor" "#ff4081")).
Proof.
  intros Hv Hrun.
  destruct (main_create_scaffolded _ _ _ _ Hv Hrun) as (d & st1 & Hcwd & Hg & Hsc & Htree).
  apply (read_file_at output_dir ["src"; "themes"] "theme.js" _ st' (d ++ ["src"; "themes"])).
  - by repeat constructor.
  - done.
  - apply scaffolded_src_sub; [by apply (bool_decide_unpack _)|done..].
  - rewrite Htree, write_all_lookup. unfold writes.
    rewrite <-app_assoc. change ((d ++ ["src"; "themes"]) ++ ["theme.js"]) with (theme_loc d).
    rewrite !final_content_app. simpl. by rewrite decide_True.
Qed.

Lemma theme_file_after_run_witness :
  read_file (main_create chart_config "./output" fs_home).2 "./output/src/themes/theme.js"
  = Some (theme_text "dark" "#1976d2" "#ff4081").
Proof.
  apply (theme_file_after_run chart_config "./output" fs_home).
  - reflexivity.
  - vm_compute. reflexivity.
Defined.

(** X9. The path of a component file, as a string. An id that starts
    with a slash is the whole path: the output directory is dropped. Any
    other id is appended to the output directory, [src] and [components],
    with one slash between the parts; an empty output directory gives a
    path relative to the working directory, and an output directory that
    already ends in a slash gets no second one. *)
Theorem component_path_forms entries id output_dir :
  Py.dict_lookup "id" entries = Some (VStr id) →
  component_path (VDict entries) output_dir
  = inr (if starts_with_slash id then id +:+ ".js"
         else if is_empty output_dir then "src/components/" +:+ id +:+ ".js"
         else if ends_with_slash output_dir then output_dir +:+ "src/components/" +:+ id +:+ ".js"
         else output_dir +:+ "/src/components/" +:+ id +:+ ".js").
Proof.
  intros Hid. unfold component_path. simpl. rewrite Hid. simpl. f_equal.
  destruct (starts_with_slash id) eqn:Hs.
  { unfold OsPath.join. simpl. unfold OsPath.join2 at 1.
    by assert (starts_with_slash (id +:+ ".js") = true) as -> by (by destruct id). }
  assert (starts_with_slash (id +:+ ".js") = false) as Hjs by (by destruct id).
  destruct (is_empty output_dir) eqn:He.
  { apply is_empty_true in He. subst output_dir.
    unfold OsPath.join. simpl. unfold OsPath.join2 at 1. by rewrite Hjs. }
  destruct (ends_with_slash output_dir) eqn:Hend; [|by apply component_path_literal].
  unfold OsPath.join. simpl. unfold OsPath.join2 at 3. simpl. rewrite He, Hend. simpl.
  unfold OsPath.join2 at 2. simpl.
  rewrite is_empty_app, He, ends_with_slash_app by done. simpl.
  unfold OsPath.join2. rewrite Hjs.
  rewrite !is_empty_app, He, !ends_with_slash_app by done. simpl.
  by rewrite !sapp_assoc.
Qed.

Lemma component_path_forms_witness :
  component_path (VDict [("type", VStr "chart"); ("id", VStr "chart")]) "out/"
  = inr "out/src/components/chart.js".
Proof. apply (component_path_forms _ "chart" "out/"). reflexivity. Defined.

End after_a_run.

Section blocked.

Implicit Types (st : fs).

Lemma makedirs_from_value_error (cs : list string) (cur : loc) (t t' : gmap loc node) :
  Os.makedirs_from cs cur t = (inl ValueError, t') → Exists (λ c, has_nul c = true) cs.
Proof.
  revert cur t. induction cs as [|c cs IH]; intros cur t; simpl.
  { by destruct (is_dir_at t cur). }
  destruct (has_nul c) eqn:Hc; [by left|].
  destruct (is_dir_at t cur); simpl; [|done].
  destruct (String.eqb c "."); [intros H; right; by eapply IH|].
  destruct (String.eqb c ".."); [intros H; right; by eapply IH|].
  destruct (t !! (cur ++ [c])); intros H; right; by eapply IH.
Qed.

Lemma makedirs_value_error name st (st' : fs) :
  Os.makedirs name st = (inl ValueError, st') → has_nul name = true.
Proof.
  unfold Os.makedirs. destruct (is_empty name); [done|].
  destruct (Os.makedirs_from _ _ _) as [r t] eqn:Hmk. intros [= -> _].
  apply makedirs_from_value_error in Hmk.
  destruct (has_nul name) eqn:Hn; [done|].
  apply has_nul_components in Hn. apply Exists_exists in Hmk as (c & Hin & Hc).
  rewrite Forall_forall in Hn. by rewrite (Hn c Hin) in Hc.
Qed.

Lemma run_makedirs_fails (names : list string) st e (st' : fs) :
  Forall (λ name, has_nul name = false) names →
  run (map (λ name, Do (Makedirs name)) names) st = (inl e, st') →
  e = FilesystemError.
Proof.
  revert st. induction names as [|name names IH]; intros st Hn Hrun; [done|].
  apply Forall_cons in Hn as [Hname Hn]. simpl in Hrun.
  destruct (Os.makedirs name st) as [[e1|[]] st1] eqn:Hmk.
  - change (run_op (Makedirs name)) with (Os.makedirs name) in Hrun.
    rewrite (bind_fail _ _ _ _ _ Hmk) in Hrun. injection Hrun as <- <-.
    destruct (run_op_fails (Makedirs name) _ _ _ Hmk) as [->| ->]; [done|].
    apply makedirs_value_error in Hmk. by rewrite Hname in Hmk.
  - change (run_op (Makedirs name)) with (Os.makedirs name) in Hrun.
    rewrite (bind_run _ _ _ _ _ Hmk) in Hrun. by eapply IH.
Qed.

(** X10. Only directories are forgiven. When the output directory is
    there and a regular file sits where one of the nine directories of the
    project structure should go, [create_project_structure] fails with a
    file system error and leaves every regular file as it was; and the
    run of [main] ends there, whatever the configuration, before any
    generator has written a file. *)
Theorem create_project_structure_blocked output_dir st d parts content :
  leads st output_dir [] d →
  parts ∈ STRUCTURE_DIRS →
  tree st !! (d ++ parts) = Some (File content) →
  ∃ st' : fs,
    create_project_structure output_dir PROJECT_STRUCTURE st = (inl FilesystemError, st')
    ∧ files st' = files st
    ∧ ∀ config, main_create config output_dir st = (inl FilesystemError, st').
Proof.
  intros Hl Hparts Hfile.
  destruct (create_project_structure output_dir PROJECT_STRUCTURE st) as [[e|[]] st'] eqn:Hrun.
  - exists st'. pose proof Hrun as Hplan.
    rewrite create_project_structure_plan, plan_structure_names in Hplan.
    destruct (run_makedirs_grows _ _ _ _ Hplan) as [_ Hg].
    assert (e = FilesystemError) as ->; [|split; [done|split; [by apply files_same|]]].
    2: { intros config. unfold main_create. by rewrite (bind_fail _ _ _ _ _ Hrun). }
    eapply run_makedirs_fails; [|done].
    destruct Hl as (Hnul & _). apply Forall_forall. intros name Hin.
    apply list_elem_of_fmap in Hin as (ps & -> & Hps).
    destruct (join_plain output_dir ps) as (_ & -> & _); [|done].
    revert ps Hps. apply Forall_forall. by repeat constructor.
  - exfalso. apply create_project_structure_inv in Hrun as (Hcwd & Hg & d' & Hsc).
    assert (leads st' output_dir [] d) as Hl'.
    { eapply leads_extends; [|done]. split; [done|]. by apply grows_keeps. }
    destruct Hsc as [Hd' Hdirs]. pose proof (leads_fun _ _ _ _ _ Hd' Hl') as ->.
    rewrite Forall_forall in Hdirs. pose proof (Hdirs parts Hparts) as Hdir.
    apply is_dir_at_true in Hdir.
    destruct (keeps_file _ _ _ _ (grows_keeps _ _ Hg) Hfile) as [content' Hfile'].
    by rewrite Hfile' in Hdir.
Qed.

Lemma create_project_structure_blocked_witness :
  ∃ st' : fs,
    create_project_structure "./output" PROJECT_STRUCTURE fs_blocked
    = (inl FilesystemError, st')
    ∧ files st' = files fs_blocked
    ∧ ∀ config, main_create config "./output" fs_blocked = (inl FilesystemError, st').
Proof.
  apply (create_project_structure_blocked "./output" fs_blocked
           ["home"; "user"; "output"] ["src"] "notes").
  - split; [reflexivity|]. split; reflexivity.
  - by apply (bool_decide_unpack _).
  - reflexivity.
Defined.

End blocked.

Section standalone.

Implicit Types (st : fs).




End standalone.

Section no_rollback.

Implicit Types (st : fs) (config : value).



End no_rollback.

(** ** Properties of the interactive program *)

Section cli.

Import Cli.

Implicit Types (w : world).

Lemma find_missing_required w :
  find_missing REQUIRED_PACKAGES w
  = (inr (if bool_decide ("yaml" ∈ importable w) then [] else ["pyyaml"]), w).
Proof.
  unfold find_missing, REQUIRED_PACKAGES. f_equal. f_equal.
  rewrite filter_cons. simpl.
  destruct (decide ("yaml" ∉ importable w)) as [Hn|Hy].
  - by rewrite bool_decide_eq_false_2.
  - rewrite bool_decide_eq_true_2; [done|]. by apply dec_stable.
Qed.

Lemma check_spec w :
  dependencies_checked w = false →
  check_and_resolve_dependencies w =
    if bool_decide ("yaml" ∈ importable w) then
      (inr tt, log (Print READY) (set_checked true w))
    else
      let asked :=
        log (Prompt "Do you want to install the missing dependencies? (yes/no): ")
            (log (Print "Missing dependencies: pyyaml") w) in
      match stdin w with
      | [] => (inl EOFError, asked)
      | answer :: rest =>
          if bool_decide (lower (strip answer) ∈ ["yes"; "y"]) then
            let started := log (PipInstall "pyyaml") (set_stdin rest asked) in
            match pip w "pyyaml" with
            | Installed modules =>
                (inr tt,
                 log (Print READY) (set_checked true
                   (log (Print "Successfully installed pyyaml.") (add_modules modules started))))
            | PipFailed =>
                (inl (SystemExit 1), log (PrintError "Failed to install pyyaml: ") started)
            end
          else
            (inl (SystemExit 1),
             log (Print "Dependencies are required to run DashCraft. Exiting...")
                 (set_stdin rest asked))
      end.
Proof.
  intros Hflag. unfold check_and_resolve_dependencies. rewrite Hflag.
  unfold mbind, W_bind at 1 2. rewrite find_missing_required.
  destruct (bool_decide ("yaml" ∈ importable w)); [done|].
  cbv zeta. unfold mbind, W_bind, print, input. simpl.
  destruct (stdin w) as [|answer rest]; [done|].
  destruct (bool_decide (lower (strip answer) ∈ ["yes"; "y"])); [|done].
  unfold install_package, check_call_pip, mbind, W_bind. simpl.
  by destruct (pip w "pyyaml").
Qed.

End cli.

Section dependency_check.

Import Cli.

Implicit Types (w : world).

(** X13. The dependency check runs once per execution. With the flag
    set it does nothing at all: no message, no prompt, no line read.
    Whenever it returns normally the flag is set, so every later call is
    such a no-op. And when [yaml] can be imported it asks nothing: it
    reads no input, runs no [pip] and prints one message. *)
Theorem dependency_check_runs_once w :
  (dependencies_checked w = true → check_and_resolve_dependencies w = (inr tt, w))
  ∧ (∀ w', check_and_resolve_dependencies w = (inr tt, w') →
       dependencies_checked w' = true
       ∧ check_and_resolve_dependencies w' = (inr tt, w'))
  ∧ (dependencies_checked w = false → "yaml" ∈ importable w →
       check_and_resolve_dependencies w = (inr tt, log (Print READY) (set_checked true w))).
Proof.
  assert (∀ w0, dependencies_checked w0 = true →
                check_and_resolve_dependencies w0 = (inr tt, w0)) as Hset.
  { intros w0 H. unfold check_and_resolve_dependencies. by rewrite H. }
  split; [apply Hset|]. split.
  - intros w' Hrun.
    assert (dependencies_checked w' = true) as Hflag; [|by split; [|apply Hset]].
    destruct (dependencies_checked w) eqn:Hw.
    { rewrite (Hset w Hw) in Hrun. by injection Hrun as <-. }
    rewrite (check_spec w Hw) in Hrun.
    destruct (bool_decide ("yaml" ∈ importable w)); [by injection Hrun as <-|].
    cbv zeta in Hrun. destruct (stdin w) as [|answer rest]; [done|].
    destruct (bool_decide (lower (strip answer) ∈ ["yes"; "y"])); [|done].
    destruct (pip w "pyyaml"); [by injection Hrun as <-|done].
  - intros Hw Hy. rewrite (check_spec w Hw). by rewrite bool_decide_eq_true_2.
Qed.

(** X14. When [yaml] cannot be imported the user is asked once, and the
    answer counts after [strip()] and [lower()]: [pip] is run exactly when
    it then reads [yes] or [y]. Any other answer, the empty one too, ends
    the program with [sys.exit(1)]: one line has been read, [pip] has not
    been run, the flag is not set and the file system is as it was. *)
Theorem dependency_check_answer w answer rest :
  dependencies_checked w = false →
  "yaml" ∉ importable w →
  stdin w = answer :: rest →
  let r := check_and_resolve_dependencies w in
  let accepted := lower (strip answer) = "yes" ∨ lower (strip answer) = "y" in
  (∃ events, trace r.2 = trace w ++ events ∧ (PipInstall "pyyaml" ∈ events ↔ accepted))
  ∧ (¬ accepted →
     r.1 = inl (SystemExit 1) ∧ dependencies_checked r.2 = false
     ∧ stdin r.2 = rest ∧ disk r.2 = disk w ∧ importable r.2 = importable w).
Proof.
  intros Hw Hy Hin r accepted. subst r. rewrite (check_spec w Hw).
  rewrite bool_decide_eq_false_2 by done. cbv zeta. rewrite Hin.
  assert (accepted ↔ lower (strip answer) ∈ ["yes"; "y"]) as Hacc.
  { unfold accepted. rewrite !elem_of_cons, elem_of_nil. tauto. }
  destruct (decide (lower (strip answer) ∈ ["yes"; "y"])) as [Hyes|Hno].
  - rewrite bool_decide_eq_true_2 by done. split; [|by rewrite Hacc].
    destruct (pip w "pyyaml"); simpl; rewrite <-!app_assoc; eexists; (split; [done|]);
      rewrite Hacc; split; try done; intros _; simpl;
      rewrite !elem_of_cons; tauto.
  - rewrite bool_decide_eq_false_2 by done. simpl. split; [|done].
    rewrite <-!app_assoc. eexists. split; [done|]. rewrite Hacc. split; [|done].
    intros Hev. exfalso. simpl in Hev.
    repeat (apply elem_of_cons in Hev as [Hev|Hev]; [done|]). by apply elem_of_nil in Hev.
Qed.

Lemma dependency_check_answer_witness :
  let r := check_and_resolve_dependencies (world_start [] [" Yes, please"]) in
  r.1 = inl (SystemExit 1) ∧ dependencies_checked r.2 = false ∧ stdin r.2 = [].
Proof.
  destruct (dependency_check_answer (world_start [] [" Yes, please"]) " Yes, please" [])
    as [_ H].
  - reflexivity.
  - apply not_elem_of_nil.
  - reflexivity.
  - destruct H as (? & ? & ? & _); [|done].
    vm_compute. intros [H|H]; discriminate H.
Defined.

End dependency_check.

Section loading.

Import Cli.

Implicit Types (w : world).

Lemma W_bind_run {A B : Type} (m : W A) (f : A → W B) w a w' :
  m w = (inr a, w') → (m ≫= f) w = f a w'.
Proof. intros H. unfold mbind, W_bind. by rewrite H. Qed.

Lemma input_run prompt w line rest :
  stdin w = line :: rest →
  input prompt w = (inr line, set_stdin rest (log (Prompt prompt) w)).
Proof. intros H. unfold input. by rewrite H. Qed.

Lemma load_yaml_spec file_path w :
  load_yaml file_path w =
    match loaded w file_path with
    | Some config => (inr config, w)
    | None => (inr VNone, log (PrintError "Error reading YAML file: ") w)
    end.
Proof.
  unfold load_yaml, loaded. destruct (bool_decide ("yaml" ∈ importable w)); [|done].
  destruct (read_file (disk w) file_path) as [text|]; [|done]. simpl.
  by destruct (safe_load w text).
Qed.

End loading.

Section interactive_main.

Import Cli.

Implicit Types (w : world).




End interactive_main.

Section whole_program.

Implicit Types (w : Cli.world).

Lemma loaded_frame w w' file_path :
  Cli.importable w' = Cli.importable w → Cli.disk w' = Cli.disk w →
  Cli.safe_load w' = Cli.safe_load w →
  loaded w' file_path = loaded w file_path.
Proof. intros H1 H2 H3. unfold loaded. by rewrite H1, H2, H3. Qed.

Lemma main_after_choice w w1 choice rest :
  Cli.check_and_resolve_dependencies w = (inr tt, w1) →
  Cli.stdin w1 = choice :: rest →
  ∃ w2, Cli.stdin w2 = rest ∧ Cli.disk w2 = Cli.disk w1
    ∧ Cli.importable w2 = Cli.importable w1 ∧ Cli.safe_load w2 = Cli.safe_load w1
    ∧ Cli.trace w2 = Cli.trace w1 ++
        [ Cli.Print "Welcome to DashCraft! What would you like to do?";
          Cli.Print "1: Create Dashboard from YAML";
          Cli.Print "2: Purge Existing Dashboard";
          Cli.Prompt "Enter your choice (1/2): " ]
    ∧ Cli.main w =
      (if String.eqb (Cli.strip choice) "1" then
         yaml_file ← Cli.input "Enter the path to the YAML configuration file: ";
         config ← Cli.load_yaml yaml_file;
         if negb (Py.truthy config) then mret tt
         else
           answer ← Cli.input
             "Enter the output directory for the dashboard (default: './output'): ";
           let output_dir := if is_empty answer then "./output" else answer in
           Cli.on_disk (main_create config output_dir) ;;
           Cli.print ("Dashboard created successfully at '" +:+ output_dir
                      +:+ "'. Run 'npm install' and 'npm start' to launch.")
       else if String.eqb (Cli.strip choice) "2" then
         target_dir ← Cli.input "Enter the path to the dashboard directory to purge: ";
         Cli.on_disk (raise (NameError "purge_dashboard"))
       else Cli.print "Invalid choice. Exiting.") w2.
Proof.
  intros Hcheck Hin. eexists. split; [|split; [|split; [|split; [|split]]]]; last first.
  - unfold Cli.main. rewrite (W_bind_run _ _ _ _ _ Hcheck).
    do 3 (erewrite W_bind_run; [|reflexivity]).
    erewrite W_bind_run; [|by apply input_run]. reflexivity.
  - simpl. by rewrite <-!app_assoc.
  - done.
  - done.
  - done.
  - done.
Qed.

(** X17. The interactive [main] does to the disk what [main] of the
    model does, given the first answer stripped, the value [load_yaml]
    returns for the second and the third as the output directory: the
    same file system is left, and an exception of the generation code
    leaves the program uncaught. After a generation the last thing on the
    terminal is the success message with the directory that was used, or,
    when the generation raised, still the prompt for the directory. *)
Theorem main_runs_generation w w1 choice file_path answer rest :
  Cli.check_and_resolve_dependencies w = (inr tt, w1) →
  Cli.stdin w1 = choice :: file_path :: answer :: rest →
  let config := default VNone (loaded w1 file_path) in
  let r := Cli.main w in
  let m := main (Cli.strip choice) config answer (Cli.disk w1) in
  let output_dir := if is_empty answer then "./output" else answer in
  Cli.disk r.2 = m.2
  ∧ r.1 = match m.1 with inl e => inl (Cli.Uncaught e) | inr u => inr u end
  ∧ (Cli.strip choice = "1" → Py.truthy config = true →
     Cli.stdin r.2 = rest
     ∧ last (Cli.trace r.2) = Some
         match m.1 with
         | inr _ =>
             Cli.Print ("Dashboard created successfully at '" +:+ output_dir
                        +:+ "'. Run 'npm install' and 'npm start' to launch.")
         | inl _ =>
             Cli.Prompt "Enter the output directory for the dashboard (default: './output'): "
         end).
Proof.
  intros Hcheck Hin config r m output_dir. subst r.
  destruct (main_after_choice _ _ _ _ Hcheck Hin) as (w2 & Hin2 & Hd2 & Hi2 & Hs2 & _ & Hmain).
  destruct (Cli.main w) as [r1 w']. simpl.
  subst m output_dir. unfold main.
  destruct (String.eqb_spec (Cli.strip choice) "1") as [Hone|Hother].
  - erewrite W_bind_run in Hmain; [|by apply input_run].
    unfold mbind at 1, Cli.W_bind at 1 in Hmain. rewrite load_yaml_spec in Hmain.
    rewrite (loaded_frame w1 _ file_path) in Hmain by done. subst config.
    destruct (loaded w1 file_path) as [config|]; simpl in *.
    2: { by injection Hmain as -> ->. }
    destruct (Py.truthy config); simpl in *.
    2: { by injection Hmain as -> ->. }
    erewrite W_bind_run in Hmain; [|by apply input_run].
    unfold mbind, Cli.W_bind, Cli.on_disk in Hmain. simpl in Hmain.
    destruct (main_create config (if is_empty answer then "./output" else answer) (Cli.disk w2))
      as [[e|[]] d] eqn:Hgen; rewrite <-Hd2, Hgen; injection Hmain as -> ->; simpl;
      (split; [done|]); (split; [done|]); intros _ _; (split; [done|]); by rewrite last_snoc.
  - destruct (String.eqb (Cli.strip choice) "2").
    + erewrite W_bind_run in Hmain; [|by apply input_run].
      injection Hmain as -> ->. by rewrite <-Hd2.
    + injection Hmain as -> ->. by rewrite <-Hd2.
Qed.

Lemma main_runs_generation_witness :
  let r := Cli.main (world_start ["yaml"] [" 1"; "dash.yaml"; ""]) in
  Cli.disk r.2 = (main "1" chart_config "" fs_with_yaml).2
  ∧ r.1 = inr tt
  ∧ last (Cli.trace r.2) = Some (Cli.Print
      "Dashboard created successfully at './output'. Run 'npm install' and 'npm start' to launch.").
Proof.
  destruct (main_runs_generation (world_start ["yaml"] [" 1"; "dash.yaml"; ""])
              (Cli.check_and_resolve_dependencies (world_start ["yaml"] [" 1"; "dash.yaml"; ""])).2
              " 1" "dash.yaml" "" []) as (H1 & H2 & H3).
  - reflexivity.
  - reflexivity.
  - split; [exact H1|]. split; [exact H2|]. by destruct H3 as [_ H3].
Defined.

(** X18. Without a configuration nothing happens, and nothing says so.
    When the user chooses 1 and [load_yaml] returns [None] or any other
    value that counts as false (an empty file, an empty mapping), [main]
    returns normally: the file system is untouched, the question for the
    output directory is never asked, and the only text after the prompt
    for the file is the error report of [load_yaml], when the load
    failed. *)
Theorem main_without_configuration w w1 choice file_path rest :
  Cli.check_and_resolve_dependencies w = (inr tt, w1) →
  Cli.stdin w1 = choice :: file_path :: rest →
  Cli.strip choice = "1" →
  Py.truthy (default VNone (loaded w1 file_path)) = false →
  let r := Cli.main w in
  r.1 = inr tt ∧ Cli.disk r.2 = Cli.disk w1 ∧ Cli.stdin r.2 = rest
  ∧ Cli.trace r.2 = Cli.trace w1 ++
      [ Cli.Print "Welcome to DashCraft! What would you like to do?";
        Cli.Print "1: Create Dashboard from YAML";
        Cli.Print "2: Purge Existing Dashboard";
        Cli.Prompt "Enter your choice (1/2): ";
        Cli.Prompt "Enter the path to the YAML configuration file: " ]
      ++ match loaded w1 file_path with
         | Some _ => []
         | None => [Cli.PrintError "Error reading YAML file: "]
         end.
Proof.
  intros Hcheck Hin Hone Hfalse r. subst r.
  destruct (main_after_choice _ _ _ _ Hcheck Hin) as (w2 & Hin2 & Hd2 & Hi2 & Hs2 & Ht2 & Hmain).
  rewrite Hone in Hmain. simpl in Hmain.
  erewrite W_bind_run in Hmain; [|by apply input_run].
  unfold mbind at 1, Cli.W_bind at 1 in Hmain. rewrite load_yaml_spec in Hmain.
  rewrite (loaded_frame w1 _ file_path) in Hmain by done.
  destruct (loaded w1 file_path) as [config|]; simpl in *.
  - rewrite Hfalse in Hmain. simpl in Hmain. rewrite Hmain. simpl.
    rewrite Ht2, <-!app_assoc. done.
  - rewrite Hmain. simpl. rewrite Ht2, <-!app_assoc. done.
Qed.

Lemma main_without_configuration_witness :
  let r := Cli.main (world_start ["yaml"] ["1"; "missing.yaml"; "./output"]) in
  r.1 = inr tt ∧ Cli.disk r.2 = fs_with_yaml ∧ Cli.stdin r.2 = ["./output"].
Proof.
  destruct (main_without_configuration (world_start ["yaml"] ["1"; "missing.yaml"; "./output"])
              (Cli.check_and_resolve_dependencies
                 (world_start ["yaml"] ["1"; "missing.yaml"; "./output"])).2
              "1" "missing.yaml" ["./output"]) as (H1 & H2 & H3 & _).
  - reflexivity.
  - reflexivity.
  - reflexivity.
  - reflexivity.
  - split; [exact H1|]. split; [exact H2|exact H3].
Defined.

End whole_program.

Section harmless.

Implicit Types (w : Cli.world).










End harmless.

(** ** A run in a fresh output directory *)

Section fresh_directory.

Implicit Types (st : fs) (t : gmap loc node).




End fresh_directory.

Section fresh_directory_runs.

Implicit Types (st : fs) (t : gmap loc node).



End fresh_directory_runs.

Section fresh_directory_theorem.

Implicit Types (st : fs) (t : gmap loc node).





End fresh_directory_theorem.
